(** * Energy load balancer: baseline estimator and optimization engine

    A shallow embedding of [baseline_calculator.py], [simulator.py] and
    [energy_simulation.py].

    Numbers.  The Python code computes on float64.  The embedding reads every
    finite float as the rational it denotes and every arithmetic operation as
    the exact one, so rounding is out of the picture; equality of computed
    values is [Qeq] ([==]).  A comparison that rounding can turn, such as the
    classification of a slot against the threshold, is therefore stated on
    the array the engine compares (the availability fractions it has
    computed), not on the percentages of the table.

    The engine [energy_simulation.run_simulation] is given in three readings.
    [energy_simulation] is the engine on columns of finite floats; it stops
    with [NaNValue] where the source would go on with a NaN.  [with_nan] is
    the engine on float64 columns that may hold NaN (what pandas writes for a
    missing reading), with the rules of float comparison and arithmetic on
    NaN; on columns of finite floats it returns what [energy_simulation]
    returns.  [in_place] is step 3 with the dtype of the workload column as a
    parameter: a column of whole numbers is read as int64, and an int64 array
    keeps the integer part of a float written into it.

    Tables.  A pandas DataFrame is a finite map from column names to columns,
    a column being the list of its cells in row order.  All columns of one
    DataFrame share its index, hence have the same length; [observations]
    states this for the columns the engine reads.

    Effects.  A function that assigns into the table it was given
    ([data[c] = ...]) is a computation in [Py]: it takes the caller's table
    and returns the table as the caller sees it afterwards, together with
    either the returned value or the exception raised. *)

From Stdlib Require Import QArith Qminmax Qround Lqa.
From stdpp Require Import gmap strings list fin_maps.

Open Scope Q_scope.

(** ** Cells, columns and tables *)

Inductive cell : Type :=
  | Num (q : Q)          (* a finite float *)
  | Text (s : string)    (* a Python str, in a column of dtype object *)
  | NaN.                 (* the float NaN *)

Abbreviation Series := (list cell).
Abbreviation DataFrame := (gmap string (list cell)).

Definition is_text (c : cell) : bool :=
  match c with Text _ => true | _ => false end.

(** Column names used by the three modules. *)
Definition TIMESTAMP : string := "Timestamp".
Definition WORKLOAD : string := "Workload Energy Consumption (kWh)".
Definition RENEWABLE : string := "Renewable Availability (%)".
Definition PRICE : string := "Energy Price ($/kWh)".
Definition BASELINE_EMISSIONS : string := "Baseline Emissions".
Definition OPTIMIZED_ENERGY : string := "Optimized Energy".
Definition OPTIMIZED_EMISSIONS : string := "Optimized Emissions".

(** ** Exceptions and results *)

Inductive exn : Type :=
  | KeyError (key : string)
  | ValueError (msg : string)
  | TypeError
  | IndexError
  | NaNValue.   (* a NaN reached the arithmetic on finite floats *)

Inductive result (A : Type) : Type :=
  | Ok (a : A)
  | Raise (e : exn).
Arguments Ok {A} a.
Arguments Raise {A} e.

Definition rbind {A B} (r : result A) (k : A -> result B) : result B :=
  match r with
  | Ok a => k a
  | Raise e => Raise e
  end.

Notation "'let?' x ':=' r 'in' k" := (rbind r (fun x => k))
  (at level 10, x pattern, r at level 100, k at level 200).

Fixpoint mapM {A B} (f : A -> result B) (l : list A) : result (list B) :=
  match l with
  | [] => Ok []
  | x :: l' =>
      let? y := f x in
      let? ys := mapM f l' in
      Ok (y :: ys)
  end.

(** ** Computations on the caller's table *)

Definition Py (A : Type) : Type := DataFrame -> DataFrame * result A.

Definition ret {A} (a : A) : Py A := fun data => (data, Ok a).
Definition throw {A} (e : exn) : Py A := fun data => (data, Raise e).

Definition bind {A B} (m : Py A) (k : A -> Py B) : Py B :=
  fun data =>
    match m data with
    | (data', Ok a) => k a data'
    | (data', Raise e) => (data', Raise e)
    end.

Notation "x <- m ;; k" := (bind m (fun x => k))
  (at level 100, m at next level, right associativity).
Notation "m ;;; k" := (bind m (fun _ => k))
  (at level 100, right associativity).

(** [data[c]] *)
Definition getitem (c : string) : Py Series :=
  fun data =>
    match data !! c with
    | Some s => (data, Ok s)
    | None => (data, Raise (KeyError c))
    end.

(** [data[c] = s] *)
Definition setitem (c : string) (s : Series) : Py unit :=
  fun data => (<[c := s]> data, Ok tt).

(** [c in data.columns] *)
Definition has_column (c : string) : Py bool :=
  fun data => (data, Ok (bool_decide (is_Some (data !! c)))).

(** A pure step that may raise. *)
Definition lift {A} (r : result A) : Py A := fun data => (data, r).

(** ** Series arithmetic (pandas, elementwise) *)

(** A binary float operation on two cells: a str operand raises, a NaN
    operand gives NaN. *)
Definition cell_op (f : Q -> Q -> Q) (a b : cell) : result cell :=
  match a, b with
  | Text _, _ | _, Text _ => Raise TypeError
  | Num x, Num y => Ok (Num (f x y))
  | _, _ => Ok NaN
  end.

(** [s op k] and [k op s] for a Series [s] and a Python float [k]. *)
Definition series_scalar (f : Q -> Q -> Q) (s : Series) (k : Q) : result Series :=
  mapM (fun c => cell_op f c (Num k)) s.

Definition scalar_series (f : Q -> Q -> Q) (k : Q) (s : Series) : result Series :=
  mapM (fun c => cell_op f (Num k) c) s.

(** [s1 op s2] for two columns of one table. *)
Definition series_series (f : Q -> Q -> Q) (s1 s2 : Series) : result Series :=
  mapM (fun p => cell_op f (fst p) (snd p)) (zip s1 s2).

(** [s >= k]: a NaN compares false, a str raises. *)
Definition cell_ge (c : cell) (k : Q) : result bool :=
  match c with
  | Num x => Ok (Qle_bool k x)
  | NaN => Ok false
  | Text _ => Raise TypeError
  end.

Definition series_ge (s : Series) (k : Q) : result (list bool) :=
  mapM (fun c => cell_ge c k) s.

(** [np.where(cond, a, b)] *)
Definition np_where (cond : list bool) (a b : Series) : Series :=
  zip_with (fun (c : bool) (p : cell * cell) => if c then fst p else snd p)
           cond (zip a b).

(** [s.sum()]: pandas skips NaN; the sum of nothing is 0. *)
Fixpoint series_sum_from (acc : Q) (s : Series) : result Q :=
  match s with
  | [] => Ok acc
  | Num x :: s' => series_sum_from (acc + x) s'
  | NaN :: s' => series_sum_from acc s'
  | Text _ :: _ => Raise TypeError
  end.

Definition series_sum (s : Series) : result Q := series_sum_from 0 s.

(** [np.sum] of a float array. *)
Definition np_sum (l : list Q) : Q := fold_left Qplus l 0.

(** ** baseline_calculator.py *)

Module baseline_calculator.

Record metrics : Type := {
  total_energy : Q;
  total_cost : Q;
  total_emissions : Q
}.

Section to_numeric.

(** How pandas reads a str as a float; [None] when it cannot.  pandas is
    not part of the repository: its parser stays a parameter. *)
Variable parse_float : string -> option Q.

(** [pd.to_numeric(s, errors='coerce')] *)
Definition coerce (c : cell) : cell :=
  match c with
  | Num q => Num q
  | NaN => NaN
  | Text s => match parse_float s with Some q => Num q | None => NaN end
  end.

Definition to_numeric (s : Series) : Series := map coerce s.

Definition MISSING_COLUMN_MESSAGE : string :=
  "Data must contain a 'Workload Energy Consumption (kWh)' column.".

Definition calculate_baseline
    (energy_price_per_kwh emission_factor_non_renewable : Q) : Py metrics :=
  (* data[W] = pd.to_numeric(data[W], errors='coerce') *)
  col <- getitem WORKLOAD ;;
  setitem WORKLOAD (to_numeric col) ;;;
  (* if W not in data.columns: raise ValueError(...) *)
  present <- has_column WORKLOAD ;;
  (if negb present then throw (ValueError MISSING_COLUMN_MESSAGE) else ret tt) ;;;
  (* total_energy = data[W].sum() *)
  col' <- getitem WORKLOAD ;;
  total_energy <- lift (series_sum col') ;;
  let total_cost := total_energy * energy_price_per_kwh in
  let total_emissions := total_energy * emission_factor_non_renewable in
  ret {| total_energy := total_energy;
         total_cost := total_cost;
         total_emissions := total_emissions |}.

End to_numeric.

End baseline_calculator.

(** ** simulator.py *)

Module simulator.

Record results : Type := {
  baseline_energy : Q;
  optimized_energy : Q;
  energy_savings : Q;
  baseline_cost : Q;
  optimized_cost : Q;
  cost_savings : Q;
  baseline_emissions : Q;
  optimized_emissions : Q;
  emissions_savings : Q
}.

(** [data[e] * ef_nr * (1 - data[RA] / 100) + data[e] * ef_r * (data[RA] / 100)],
    the operands evaluated left to right. *)
Definition emissions_of (e : string)
    (emission_factor_non_renewable emission_factor_renewable : Q) : Py Series :=
  w1 <- getitem e ;;
  a <- lift (series_scalar Qmult w1 emission_factor_non_renewable) ;;
  ra1 <- getitem RENEWABLE ;;
  f1 <- lift (series_scalar Qdiv ra1 100) ;;
  g <- lift (scalar_series Qminus 1 f1) ;;
  non_renewable <- lift (series_series Qmult a g) ;;
  w2 <- getitem e ;;
  b <- lift (series_scalar Qmult w2 emission_factor_renewable) ;;
  ra2 <- getitem RENEWABLE ;;
  f2 <- lift (series_scalar Qdiv ra2 100) ;;
  renewable <- lift (series_series Qmult b f2) ;;
  lift (series_series Qplus non_renewable renewable).

(** [data[c].sum()] and [(data[c] * k).sum()] *)
Definition column_sum (c : string) : Py Q :=
  s <- getitem c ;; lift (series_sum s).

Definition scaled_column_sum (c : string) (k : Q) : Py Q :=
  s <- getitem c ;;
  p <- lift (series_scalar Qmult s k) ;;
  lift (series_sum p).

Definition run_simulation
    (renewable_threshold energy_price_per_kwh
     emission_factor_non_renewable emission_factor_renewable : Q) : Py results :=
  (* Step 1: data['Baseline Emissions'] = ... *)
  be <- emissions_of WORKLOAD emission_factor_non_renewable emission_factor_renewable ;;
  setitem BASELINE_EMISSIONS be ;;;
  (* Step 2: data['Optimized Energy'] = np.where(RA >= threshold * 100, W, W * 0.9) *)
  ra <- getitem RENEWABLE ;;
  cond <- lift (series_ge ra (renewable_threshold * 100)) ;;
  w <- getitem WORKLOAD ;;
  w' <- getitem WORKLOAD ;;
  reduced <- lift (series_scalar Qmult w' 0.9) ;;
  setitem OPTIMIZED_ENERGY (np_where cond w reduced) ;;;
  (* data['Optimized Emissions'] = ... *)
  oe <- emissions_of OPTIMIZED_ENERGY emission_factor_non_renewable emission_factor_renewable ;;
  setitem OPTIMIZED_EMISSIONS oe ;;;
  (* the dictionary of totals, entry by entry *)
  r_baseline_energy <- column_sum WORKLOAD ;;
  r_optimized_energy <- column_sum OPTIMIZED_ENERGY ;;
  s1 <- column_sum WORKLOAD ;;
  s2 <- column_sum OPTIMIZED_ENERGY ;;
  r_baseline_cost <- scaled_column_sum WORKLOAD energy_price_per_kwh ;;
  r_optimized_cost <- scaled_column_sum OPTIMIZED_ENERGY energy_price_per_kwh ;;
  c1 <- scaled_column_sum WORKLOAD energy_price_per_kwh ;;
  c2 <- scaled_column_sum OPTIMIZED_ENERGY energy_price_per_kwh ;;
  r_baseline_emissions <- column_sum BASELINE_EMISSIONS ;;
  r_optimized_emissions <- column_sum OPTIMIZED_EMISSIONS ;;
  e1 <- column_sum BASELINE_EMISSIONS ;;
  e2 <- column_sum OPTIMIZED_EMISSIONS ;;
  ret {| baseline_energy := r_baseline_energy;
         optimized_energy := r_optimized_energy;
         energy_savings := s1 - s2;
         baseline_cost := r_baseline_cost;
         optimized_cost := r_optimized_cost;
         cost_savings := c1 - c2;
         baseline_emissions := r_baseline_emissions;
         optimized_emissions := r_optimized_emissions;
         emissions_savings := e1 - e2 |}.

End simulator.

(** ** energy_simulation.py *)

Module energy_simulation.

(** [a[i]] on a numpy array. *)
Definition index {A} (a : list A) (i : nat) : result A :=
  match a !! i with
  | Some x => Ok x
  | None => Raise IndexError
  end.

(** [a[mask]]: the entries of [a] where the boolean mask holds. *)
Fixpoint select {A} (mask : list bool) (a : list A) : list A :=
  match mask, a with
  | m :: mask', x :: a' => if m then x :: select mask' a' else select mask' a'
  | _, _ => []
  end.

(** Python's [min(a, b)]: [b] when [b < a], else [a]. *)
Definition py_min (a b : Q) : Q := if Qle_bool a b then a else b.

(** [np.maximum(x, 0)] on one entry. *)
Definition maximum0 (x : Q) : Q := if Qle_bool 0 x then x else 0.

(** A [for i in range(n)] loop whose body may [break] (the flag) or raise. *)
Fixpoint for_range {S} (body : nat -> S -> result (S * bool))
    (range : list nat) (s : S) : result S :=
  match range with
  | [] => Ok s
  | i :: range' =>
      match body i s with
      | Ok (s', break) => if break : bool then Ok s' else for_range body range' s'
      | Raise e => Raise e
      end
  end.

(** What the two loops of step 3 update. *)
Record schedule : Type := {
  optimized_workload_energy : list Q;
  energy_to_shift : Q
}.

(** [optimal_hours = renewable_availability >= renewable_threshold] *)
Definition optimal_hours (renewable_availability : list Q) (renewable_threshold : Q)
    : list bool :=
  map (fun a => Qle_bool renewable_threshold a) renewable_availability.

(** [np.sum(workload_energy[~optimal] * (threshold - availability[~optimal]))] *)
Definition total_energy_to_shift (workload_energy renewable_availability : list Q)
    (optimal : list bool) (renewable_threshold : Q) : Q :=
  let non_optimal := map negb optimal in
  np_sum (zip_with Qmult
            (select non_optimal workload_energy)
            (map (fun a => renewable_threshold - a)
                 (select non_optimal renewable_availability))).

(** Body of the loop "increase workload during optimal hours". *)
Definition increase_body (optimal : list bool) (workload_energy : list Q)
    (i : nat) (st : schedule) : result (schedule * bool) :=
  let? o := index optimal i in
  if o : bool then
    let? w := index workload_energy i in
    let max_additional_energy := w * 0.2 in
    let shift_amount := py_min (energy_to_shift st) max_additional_energy in
    let? cur := index (optimized_workload_energy st) i in
    let st' := {| optimized_workload_energy :=
                    <[i := cur + shift_amount]> (optimized_workload_energy st);
                  energy_to_shift := energy_to_shift st - shift_amount |} in
    Ok (st', Qle_bool (energy_to_shift st') 0)
  else Ok (st, false).

(** Body of the loop "decrease workload during non-optimal hours". *)
Definition decrease_body (optimal : list bool) (workload_energy : list Q)
    (i : nat) (st : schedule) : result (schedule * bool) :=
  let? o := index optimal i in
  if negb o then
    let? w := index workload_energy i in
    let reduction := w * 0.1 in
    let? cur := index (optimized_workload_energy st) i in
    Ok ({| optimized_workload_energy :=
             <[i := cur - reduction]> (optimized_workload_energy st);
           energy_to_shift := energy_to_shift st |}, false)
  else Ok (st, false).

(** Emissions of an energy array split by the renewable fraction. *)
Definition emissions (energy renewable_availability : list Q)
    (emission_factor_non_renewable emission_factor_renewable : Q) : list Q :=
  let renewable_energy := zip_with Qmult energy renewable_availability in
  let non_renewable_energy := zip_with Qminus energy renewable_energy in
  zip_with Qplus
    (map (fun x => x * emission_factor_non_renewable) non_renewable_energy)
    (map (fun x => x * emission_factor_renewable) renewable_energy).

Record results : Type := {
  total_baseline_energy : Q;
  total_optimized_energy : Q;
  energy_savings : Q;
  total_baseline_cost : Q;
  total_optimized_cost : Q;
  cost_savings : Q;
  total_baseline_emissions : Q;
  total_optimized_emissions : Q;
  emissions_reduction : Q;
  carbon_footprint_impact : Q;
  df : DataFrame
}.

Definition BASELINE_ENERGY_KWH : string := "Baseline Energy (kWh)".
Definition OPTIMIZED_ENERGY_KWH : string := "Optimized Energy (kWh)".

(** Step 3 of [run_simulation]: the optimized workload schedule over [n]
    time slots, through [np.maximum(..., 0)]. *)
Definition optimize_workload_schedule (n : nat)
    (workload_energy renewable_availability : list Q) (renewable_threshold : Q)
    : result (list Q) :=
  let optimal := optimal_hours renewable_availability renewable_threshold in
  let start := {| optimized_workload_energy := workload_energy;
                  energy_to_shift :=
                    total_energy_to_shift workload_energy renewable_availability
                                          optimal renewable_threshold |} in
  let? increased :=
    for_range (increase_body optimal workload_energy) (seq 0 n) start in
  let? decreased :=
    for_range (decrease_body optimal workload_energy) (seq 0 n) increased in
  Ok (map maximum0 (optimized_workload_energy decreased)).

(** Steps 2, 4 and 5: the metrics of the baseline and of the optimized
    schedule, and the dictionary returned. *)
Definition compare_results (timestamps : Series)
    (energy_prices renewable_availability workload_energy optimized_workload : list Q)
    (emission_factor_non_renewable emission_factor_renewable : Q) : results :=
  (* Step 2: baseline metrics *)
  let baseline_energy_consumption := workload_energy in
  let baseline_cost := zip_with Qmult baseline_energy_consumption energy_prices in
  let baseline_emissions :=
    emissions baseline_energy_consumption renewable_availability
              emission_factor_non_renewable emission_factor_renewable in
  (* Step 4: optimized metrics *)
  let optimized_energy_consumption := optimized_workload in
  let optimized_cost := zip_with Qmult optimized_energy_consumption energy_prices in
  let optimized_emissions :=
    emissions optimized_energy_consumption renewable_availability
              emission_factor_non_renewable emission_factor_renewable in
  (* Step 5: compare *)
  let total_baseline_energy := np_sum baseline_energy_consumption in
  let total_optimized_energy := np_sum optimized_energy_consumption in
  let total_baseline_cost := np_sum baseline_cost in
  let total_optimized_cost := np_sum optimized_cost in
  let total_baseline_emissions := np_sum baseline_emissions in
  let total_optimized_emissions := np_sum optimized_emissions in
  let emissions_reduction := total_baseline_emissions - total_optimized_emissions in
  let carbon_footprint_impact :=
    if negb (Qeq_bool total_baseline_emissions 0)
    then (emissions_reduction / total_baseline_emissions) * 100
    else 0 in
  {| total_baseline_energy := total_baseline_energy;
     total_optimized_energy := total_optimized_energy;
     energy_savings := total_baseline_energy - total_optimized_energy;
     total_baseline_cost := total_baseline_cost;
     total_optimized_cost := total_optimized_cost;
     cost_savings := total_baseline_cost - total_optimized_cost;
     total_baseline_emissions := total_baseline_emissions;
     total_optimized_emissions := total_optimized_emissions;
     emissions_reduction := emissions_reduction;
     carbon_footprint_impact := carbon_footprint_impact;
     df := <[PRICE := map Num energy_prices]>
           (<[RENEWABLE := map (fun a => Num (a * 100)) renewable_availability]>
           (<[OPTIMIZED_ENERGY_KWH := map Num optimized_energy_consumption]>
           (<[BASELINE_ENERGY_KWH := map Num baseline_energy_consumption]>
           (<[TIMESTAMP := timestamps]> ∅)))) |}.

(** [run_simulation] on the arrays read from the table.  The baseline
    metrics of step 2 are pure array arithmetic: computing them after the
    schedule of step 3 changes nothing. *)
Definition simulate (timestamps : Series)
    (energy_prices renewable_pct workload_energy : list Q)
    (renewable_threshold emission_factor_non_renewable emission_factor_renewable : Q)
    : result results :=
  let renewable_availability := map (fun x => x / 100) renewable_pct in
  let? optimized :=
    optimize_workload_schedule (length timestamps) workload_energy
                               renewable_availability renewable_threshold in
  Ok (compare_results timestamps energy_prices renewable_availability
                      workload_energy optimized
                      emission_factor_non_renewable emission_factor_renewable).

(** Reading a column of the table: [data[c]]. *)
Definition column (data : DataFrame) (c : string) : result Series :=
  match data !! c with
  | Some s => Ok s
  | None => Raise (KeyError c)
  end.

(** Arithmetic on an array that holds a str raises TypeError. *)
Definition no_text (s : Series) : result unit :=
  if existsb is_text s then Raise TypeError else Ok tt.

(** The array as finite floats.  The source goes on with a NaN where this
    reading stops; [with_nan.run_simulation] below is the engine on columns
    that may hold one. *)
Definition finite (s : Series) : result (list Q) :=
  mapM (fun c => match c with
                 | Num q => Ok q
                 | Text _ => Raise TypeError
                 | NaN => Raise NaNValue
                 end) s.

(** [run_simulation] only reads [data]: the two arrays it updates in place
    are copies ([workload_energy.copy()]) of the workload array, and the
    table it returns is built anew.  The columns are looked up in the order
    of the source; a str in a column raises at the first arithmetic on it. *)
Definition run_simulation (data : DataFrame)
    (renewable_threshold emission_factor_non_renewable emission_factor_renewable : Q)
    : result results :=
  let? timestamps := column data TIMESTAMP in
  let? price_column := column data PRICE in
  let? renewable_column := column data RENEWABLE in
  let? _ := no_text renewable_column in              (* [.values / 100] *)
  let? workload_column := column data WORKLOAD in
  let? _ := no_text workload_column in               (* [workload * energy_prices] *)
  let? _ := no_text price_column in
  let? energy_prices := finite price_column in
  let? renewable_pct := finite renewable_column in
  let? workload_energy := finite workload_column in
  simulate timestamps energy_prices renewable_pct workload_energy
           renewable_threshold emission_factor_non_renewable emission_factor_renewable.

End energy_simulation.

(** ** The scenario of three slots *)

Definition scenario_workload : list Q := [10; 10; 10].
Definition scenario_availability : list Q := [80; 50; 30].
Definition scenario_prices : list Q := [0.1; 0.1; 0.1].

Definition scenario_timestamps : Series :=
  [Text "2024-01-01 00:00"; Text "2024-01-01 01:00"; Text "2024-01-01 02:00"].

Definition scenario_table : DataFrame :=
  <[TIMESTAMP := scenario_timestamps]>
  (<[WORKLOAD := map Num scenario_workload]>
  (<[RENEWABLE := map Num scenario_availability]>
  (<[PRICE := map Num scenario_prices]> ∅))).

(** A table the engine can read: the four columns are present, hold finite
    floats (the timestamps may be anything) and have one entry per row. *)
Record observations (data : DataFrame) (timestamps : Series)
    (prices renewable_pct workload : list Q) : Prop := {
  obs_timestamp : data !! TIMESTAMP = Some timestamps;
  obs_price : data !! PRICE = Some (map Num prices);
  obs_renewable : data !! RENEWABLE = Some (map Num renewable_pct);
  obs_workload : data !! WORKLOAD = Some (map Num workload);
  obs_rows_price : length prices = length timestamps;
  obs_rows_renewable : length renewable_pct = length timestamps;
  obs_rows_workload : length workload = length timestamps
}.

(** Equality of cells and columns up to the value of the floats. *)
Inductive cell_equiv : cell -> cell -> Prop :=
  | cell_equiv_num a b : a == b -> cell_equiv (Num a) (Num b)
  | cell_equiv_text s : cell_equiv (Text s) (Text s)
  | cell_equiv_nan : cell_equiv NaN NaN.

Definition series_equiv (s1 s2 : Series) : Prop := Forall2 cell_equiv s1 s2.

(** The fraction of renewable energy of a percentage column. *)
Definition fractions (renewable_pct : list Q) : list Q :=
  map (fun x => x / 100) renewable_pct.

(** ** What a computation does to the caller's table *)

(** [m] assigns to no column outside [cols]. *)
Definition assigns_only {A} (cols : list string) (m : Py A) : Prop :=
  forall (data : DataFrame) (c : string),
    c ∉ cols -> fst (m data) !! c = data !! c.

(** Every column of [cols] is a column of the table. *)
Definition has_columns (cols : list string) (data : DataFrame) : Prop :=
  Forall (fun c => is_Some (data !! c)) cols.

(** When [m] starts on a table satisfying [P] and returns, the table
    satisfies [Q]. *)
Definition returns_with {A} (P : DataFrame -> Prop) (m : Py A)
    (Q : DataFrame -> Prop) : Prop :=
  forall (data data' : DataFrame) (a : A),
    P data -> m data = (data', Ok a) -> Q data'.

(** The columns [simulator.run_simulation] derives. *)
Definition DERIVED : list string :=
  [OPTIMIZED_EMISSIONS; OPTIMIZED_ENERGY; BASELINE_EMISSIONS].

(** A table whose workload column holds text. *)
Definition text_table : DataFrame :=
  <[WORKLOAD := [Num 10; Text "n/a"; Num 10]]> scenario_table.

(** The scenario table without its workload column. *)
Definition no_workload_table : DataFrame := delete WORKLOAD scenario_table.

(** ** optena1.py (and originals/simulator_.py, the same [run_simulation]) *)

Module optena1.

(** [calculate_baseline] of the single-file application: no coercion and no
    check of the column, the table is only read.  The sum of a column holding
    a str ends in a TypeError here (at the sum or at the product by the
    price). *)
Definition calculate_baseline
    (energy_price_per_kwh emission_factor_non_renewable : Q)
    : Py baseline_calculator.metrics :=
  col <- getitem WORKLOAD ;;
  total_energy <- lift (series_sum col) ;;
  let total_cost := total_energy * energy_price_per_kwh in
  let total_emissions := total_energy * emission_factor_non_renewable in
  ret {| baseline_calculator.total_energy := total_energy;
         baseline_calculator.total_cost := total_cost;
         baseline_calculator.total_emissions := total_emissions |}.

Record results : Type := {
  optimized_energy : Q;
  optimized_cost : Q;
  optimized_emissions : Q;
  energy_savings : Q;
  cost_savings : Q;
  emissions_savings : Q
}.

Definition run_simulation
    (renewable_threshold energy_price_per_kwh
     emission_factor_non_renewable emission_factor_renewable : Q) : Py results :=
  (* Step 1: data['Baseline Emissions'] = ... *)
  be <- simulator.emissions_of WORKLOAD
          emission_factor_non_renewable emission_factor_renewable ;;
  setitem BASELINE_EMISSIONS be ;;;
  (* Step 2: data['Optimized Energy'] = np.where(...) *)
  ra <- getitem RENEWABLE ;;
  cond <- lift (series_ge ra (renewable_threshold * 100)) ;;
  w <- getitem WORKLOAD ;;
  w' <- getitem WORKLOAD ;;
  reduced <- lift (series_scalar Qmult w' 0.9) ;;
  setitem OPTIMIZED_ENERGY (np_where cond w reduced) ;;;
  (* data['Optimized Emissions'] = ... *)
  oe <- simulator.emissions_of OPTIMIZED_ENERGY
          emission_factor_non_renewable emission_factor_renewable ;;
  setitem OPTIMIZED_EMISSIONS oe ;;;
  (* the dictionary of totals, entry by entry *)
  r_optimized_energy <- simulator.column_sum OPTIMIZED_ENERGY ;;
  r_optimized_cost <- simulator.scaled_column_sum OPTIMIZED_ENERGY energy_price_per_kwh ;;
  r_optimized_emissions <- simulator.column_sum OPTIMIZED_EMISSIONS ;;
  s1 <- simulator.column_sum WORKLOAD ;;
  s2 <- simulator.column_sum OPTIMIZED_ENERGY ;;
  c1 <- simulator.scaled_column_sum WORKLOAD energy_price_per_kwh ;;
  c2 <- simulator.scaled_column_sum OPTIMIZED_ENERGY energy_price_per_kwh ;;
  e1 <- simulator.column_sum BASELINE_EMISSIONS ;;
  e2 <- simulator.column_sum OPTIMIZED_EMISSIONS ;;
  ret {| optimized_energy := r_optimized_energy;
         optimized_cost := r_optimized_cost;
         optimized_emissions := r_optimized_emissions;
         energy_savings := s1 - s2;
         cost_savings := c1 - c2;
         emissions_savings := e1 - e2 |}.

End optena1.

(** ** originals/simulator.py *)

Module originals_simulator.

Definition RENEWABLE_FRACTION : string := "Renewable Availability".
Definition OPTIMIZED_ENERGY_KWH : string := "Optimized Energy (kWh)".

Definition MISSING_COLUMN_MESSAGE : string :=
  "Data must contain a 'Renewable Availability (%)' column.".

(** The lambda applied to each row: the condition is evaluated first, the
    product only for a row at or above the threshold. *)
Definition optimized_row (renewable_threshold : Q) (workload fraction : cell)
    : result cell :=
  let? optimal := cell_ge fraction renewable_threshold in
  if optimal : bool then cell_op Qmult workload fraction else Ok workload.

(** [data.apply(lambda row: ..., axis=1)], row by row in index order. *)
Definition apply_rows (renewable_threshold : Q) (workload fraction : Series)
    : result Series :=
  mapM (fun p => optimized_row renewable_threshold (fst p) (snd p))
       (zip workload fraction).

Definition run_simulation
    (renewable_threshold energy_price_per_kwh
     emission_factor_non_renewable emission_factor_renewable : Q)
    : Py simulator.results :=
  (* if 'Renewable Availability (%)' not in data.columns: raise ValueError *)
  present <- has_column RENEWABLE ;;
  (if negb present then throw (ValueError MISSING_COLUMN_MESSAGE) else ret tt) ;;;
  (* data['Renewable Availability'] = data['Renewable Availability (%)'] / 100 *)
  ra <- getitem RENEWABLE ;;
  fraction <- lift (series_scalar Qdiv ra 100) ;;
  setitem RENEWABLE_FRACTION fraction ;;;
  (* baseline calculations *)
  w <- getitem WORKLOAD ;;
  baseline_energy <- lift (series_sum w) ;;
  let baseline_cost := baseline_energy * energy_price_per_kwh in
  let baseline_emissions := baseline_energy * emission_factor_non_renewable in
  (* data['Optimized Energy (kWh)'] = data.apply(..., axis=1) *)
  w' <- getitem WORKLOAD ;;
  f <- getitem RENEWABLE_FRACTION ;;
  optimized <- lift (apply_rows renewable_threshold w' f) ;;
  setitem OPTIMIZED_ENERGY_KWH optimized ;;;
  (* optimized cost and emissions *)
  oe <- getitem OPTIMIZED_ENERGY_KWH ;;
  optimized_energy <- lift (series_sum oe) ;;
  let optimized_cost := optimized_energy * energy_price_per_kwh in
  oe' <- getitem OPTIMIZED_ENERGY_KWH ;;
  renewable_part <- lift (series_scalar Qmult oe' emission_factor_renewable) ;;
  per_row <- lift (series_scalar Qplus renewable_part
                     ((baseline_energy - optimized_energy)
                      * emission_factor_non_renewable)) ;;
  optimized_emissions <- lift (series_sum per_row) ;;
  ret {| simulator.baseline_energy := baseline_energy;
         simulator.optimized_energy := optimized_energy;
         simulator.energy_savings := baseline_energy - optimized_energy;
         simulator.baseline_cost := baseline_cost;
         simulator.optimized_cost := optimized_cost;
         simulator.cost_savings := baseline_cost - optimized_cost;
         simulator.baseline_emissions := baseline_emissions;
         simulator.optimized_emissions := optimized_emissions;
         simulator.emissions_savings := baseline_emissions - optimized_emissions |}.

End originals_simulator.

(** ** originals/app5.py: from the load-factor slider to the simulation *)

Module app5.

Definition ADJUSTED_WORKLOAD : string :=
  "Adjusted Workload Energy Consumption (kWh)".

Section session.

Variable parse_float : string -> option Q.

(** Lines 42 to 62 of the script, the button 'Run Simulation' pressed: the
    adjusted column, the baseline metrics, the simulation. *)
Definition session
    (baseline_load_factor renewable_threshold energy_price_per_kwh
     emission_factor_non_renewable emission_factor_renewable : Q)
    : Py (baseline_calculator.metrics * simulator.results) :=
  w <- getitem WORKLOAD ;;
  adjusted <- lift (series_scalar Qmult w baseline_load_factor) ;;
  setitem ADJUSTED_WORKLOAD adjusted ;;;
  baseline_results <-
    baseline_calculator.calculate_baseline parse_float
      energy_price_per_kwh emission_factor_non_renewable ;;
  simulation_results <-
    simulator.run_simulation renewable_threshold energy_price_per_kwh
      emission_factor_non_renewable emission_factor_renewable ;;
  ret (baseline_results, simulation_results).

End session.

End app5.

(** ** filter_requirements.py *)

Module filter_requirements.





End filter_requirements.

(** ** simulator.py on columns of numbers *)

(** [e * ef_nr * (1 - ra / 100) + e * ef_r * (ra / 100)], entry by entry. *)
Definition weighted_emissions (energy renewable_pct : list Q)
    (emission_factor_non_renewable emission_factor_renewable : Q) : list Q :=
  zip_with Qplus
    (zip_with Qmult
       (map (fun x => x * emission_factor_non_renewable) energy)
       (map (fun f => 1 - f) (map (fun a => a / 100) renewable_pct)))
    (zip_with Qmult
       (map (fun x => x * emission_factor_renewable) energy)
       (map (fun a => a / 100) renewable_pct)).

(** [np.where(ra >= threshold * 100, w, w * 0.9)], entry by entry. *)
Definition reduced_energy (workload renewable_pct : list Q)
    (renewable_threshold : Q) : list Q :=
  zip_with (fun (c : bool) (p : Q * Q) => if c then fst p else snd p)
    (map (Qle_bool (renewable_threshold * 100)) renewable_pct)
    (zip workload (map (fun x => x * 0.9) workload)).

(** The table [simulator.run_simulation] leaves and the totals it returns,
    on a workload column [w] and an availability column [ra] of numbers. *)
Definition simulator_table (data : DataFrame) (w ra : list Q) (t efn efr : Q)
    : DataFrame :=
  <[OPTIMIZED_EMISSIONS :=
      map Num (weighted_emissions (reduced_energy w ra t) ra efn efr)]>
  (<[OPTIMIZED_ENERGY := map Num (reduced_energy w ra t)]>
  (<[BASELINE_EMISSIONS := map Num (weighted_emissions w ra efn efr)]> data)).

Definition simulator_totals (w ra : list Q) (t p efn efr : Q) : simulator.results :=
  let oe := reduced_energy w ra t in
  {| simulator.baseline_energy := np_sum w;
     simulator.optimized_energy := np_sum oe;
     simulator.energy_savings := np_sum w - np_sum oe;
     simulator.baseline_cost := np_sum (map (fun x => x * p) w);
     simulator.optimized_cost := np_sum (map (fun x => x * p) oe);
     simulator.cost_savings :=
       np_sum (map (fun x => x * p) w) - np_sum (map (fun x => x * p) oe);
     simulator.baseline_emissions := np_sum (weighted_emissions w ra efn efr);
     simulator.optimized_emissions := np_sum (weighted_emissions oe ra efn efr);
     simulator.emissions_savings :=
       np_sum (weighted_emissions w ra efn efr)
       - np_sum (weighted_emissions oe ra efn efr) |}.

(** ** originals/simulator.py on columns of numbers *)

(** The optimized energy of [originals_simulator.run_simulation], entry by
    entry: the workload times the availability fraction in a slot at or above
    the threshold, the workload itself below. *)
Definition scaled_energy (workload renewable_pct : list Q)
    (renewable_threshold : Q) : list Q :=
  zip_with (fun x f => if Qle_bool renewable_threshold f then x * f else x)
    workload (map (fun a => a / 100) renewable_pct).

(** ** The cells the baseline estimator counts *)

(** The numbers of a column after [pd.to_numeric(..., errors='coerce')]:
    the floats and the text pandas can read, in order; the rest is NaN and
    is skipped by the sum. *)
Definition readable (parse_float : string -> option Q) (col : Series) : list Q :=
  omap (fun c => match baseline_calculator.coerce parse_float c with
                 | Num q => Some q
                 | _ => None
                 end) col.

(** ** energy_simulation.py on columns that may hold NaN *)

(** [energy_simulation.run_simulation] above stops at a NaN cell with the
    marker [NaNValue]; the Python code does not stop there: the NaN enters
    the float arithmetic.  This module is [run_simulation] on such arrays.
    A float is a finite value or NaN; arithmetic on finite values is exact as
    before.  On columns of finite numbers it returns what
    [energy_simulation.run_simulation] returns (lemma
    [with_nan_run_simulation_finite]). *)

Module with_nan.

(** A float64: [Some q] a finite value, [None] the NaN. *)
Abbreviation float := (option Q).

(** [a op b]: NaN as soon as an operand is NaN. *)
Definition arith (f : Q -> Q -> Q) (a b : float) : float :=
  match a, b with
  | Some x, Some y => Some (f x y)
  | _, _ => None
  end.

(** [a <= b], [a < b]: false as soon as a side is NaN. *)
Definition le (a b : float) : bool :=
  match a, b with
  | Some x, Some y => Qle_bool x y
  | _, _ => false
  end.

Definition lt (a b : float) : bool :=
  match a, b with
  | Some x, Some y => negb (Qle_bool y x)
  | _, _ => false
  end.

(** [a != b]: true as soon as a side is NaN. *)
Definition ne (a b : float) : bool :=
  match a, b with
  | Some x, Some y => negb (Qeq_bool x y)
  | _, _ => true
  end.

(** Python's [min(a, b)]: [b] when [b < a], else [a]; so [min(NaN, b)] is NaN
    and [min(a, NaN)] is [a]. *)
Definition py_min (a b : float) : float := if lt b a then b else a.

(** [np.maximum(x, 0)] on one entry: NaN stays NaN. *)
Definition maximum0 (x : float) : float :=
  match x with
  | Some q => Some (if Qle_bool 0 q then q else 0)
  | None => None
  end.

(** [np.sum]: NaN as soon as an entry is NaN. *)
Definition np_sum (l : list float) : float := fold_left (arith Qplus) l (Some 0).

Record schedule : Type := {
  optimized_workload_energy : list float;
  energy_to_shift : float
}.

(** [optimal_hours = renewable_availability >= renewable_threshold] *)
Definition optimal_hours (renewable_availability : list float)
    (renewable_threshold : Q) : list bool :=
  map (fun a => le (Some renewable_threshold) a) renewable_availability.

(** [np.sum(workload_energy[~optimal] * (threshold - availability[~optimal]))] *)
Definition total_energy_to_shift (workload_energy renewable_availability : list float)
    (optimal : list bool) (renewable_threshold : Q) : float :=
  let non_optimal := map negb optimal in
  np_sum (zip_with (arith Qmult)
            (energy_simulation.select non_optimal workload_energy)
            (map (fun a => arith Qminus (Some renewable_threshold) a)
                 (energy_simulation.select non_optimal renewable_availability))).

(** Body of the loop "increase workload during optimal hours". *)
Definition increase_body (optimal : list bool) (workload_energy : list float)
    (i : nat) (st : schedule) : result (schedule * bool) :=
  let? o := energy_simulation.index optimal i in
  if o : bool then
    let? w := energy_simulation.index workload_energy i in
    let max_additional_energy := arith Qmult w (Some 0.2) in
    let shift_amount := py_min (energy_to_shift st) max_additional_energy in
    let? cur := energy_simulation.index (optimized_workload_energy st) i in
    let st' := {| optimized_workload_energy :=
                    <[i := arith Qplus cur shift_amount]>
                      (optimized_workload_energy st);
                  energy_to_shift :=
                    arith Qminus (energy_to_shift st) shift_amount |} in
    Ok (st', le (energy_to_shift st') (Some 0))
  else Ok (st, false).

(** Body of the loop "decrease workload during non-optimal hours". *)
Definition decrease_body (optimal : list bool) (workload_energy : list float)
    (i : nat) (st : schedule) : result (schedule * bool) :=
  let? o := energy_simulation.index optimal i in
  if negb o then
    let? w := energy_simulation.index workload_energy i in
    let reduction := arith Qmult w (Some 0.1) in
    let? cur := energy_simulation.index (optimized_workload_energy st) i in
    Ok ({| optimized_workload_energy :=
             <[i := arith Qminus cur reduction]> (optimized_workload_energy st);
           energy_to_shift := energy_to_shift st |}, false)
  else Ok (st, false).

(** Step 3, through [np.maximum(..., 0)]. *)
Definition optimize_workload_schedule (n : nat)
    (workload_energy renewable_availability : list float) (renewable_threshold : Q)
    : result (list float) :=
  let optimal := optimal_hours renewable_availability renewable_threshold in
  let start := {| optimized_workload_energy := workload_energy;
                  energy_to_shift :=
                    total_energy_to_shift workload_energy renewable_availability
                                          optimal renewable_threshold |} in
  let? increased :=
    energy_simulation.for_range (increase_body optimal workload_energy)
                                (seq 0 n) start in
  let? decreased :=
    energy_simulation.for_range (decrease_body optimal workload_energy)
                                (seq 0 n) increased in
  Ok (map maximum0 (optimized_workload_energy decreased)).

(** Emissions of an energy array split by the renewable fraction. *)
Definition emissions (energy renewable_availability : list float)
    (emission_factor_non_renewable emission_factor_renewable : Q) : list float :=
  let renewable_energy := zip_with (arith Qmult) energy renewable_availability in
  let non_renewable_energy := zip_with (arith Qminus) energy renewable_energy in
  zip_with (arith Qplus)
    (map (fun x => arith Qmult x (Some emission_factor_non_renewable))
         non_renewable_energy)
    (map (fun x => arith Qmult x (Some emission_factor_renewable))
         renewable_energy).

Record results : Type := {
  total_baseline_energy : float;
  total_optimized_energy : float;
  energy_savings : float;
  total_baseline_cost : float;
  total_optimized_cost : float;
  cost_savings : float;
  total_baseline_emissions : float;
  total_optimized_emissions : float;
  emissions_reduction : float;
  carbon_footprint_impact : float;
  df : DataFrame
}.

(** A float as a cell of a table, and the floats of a column without str. *)
Definition to_cell (x : float) : cell :=
  match x with
  | Some q => Num q
  | None => NaN
  end.

Definition floats (s : Series) : list float :=
  map (fun c => match c with Num q => Some q | _ => None end) s.

(** Steps 2, 4 and 5. *)
Definition compare_results (timestamps : Series)
    (energy_prices renewable_availability workload_energy optimized_workload
       : list float)
    (emission_factor_non_renewable emission_factor_renewable : Q) : results :=
  (* Step 2: baseline metrics *)
  let baseline_energy_consumption := workload_energy in
  let baseline_cost :=
    zip_with (arith Qmult) baseline_energy_consumption energy_prices in
  let baseline_emissions :=
    emissions baseline_energy_consumption renewable_availability
              emission_factor_non_renewable emission_factor_renewable in
  (* Step 4: optimized metrics *)
  let optimized_energy_consumption := optimized_workload in
  let optimized_cost :=
    zip_with (arith Qmult) optimized_energy_consumption energy_prices in
  let optimized_emissions :=
    emissions optimized_energy_consumption renewable_availability
              emission_factor_non_renewable emission_factor_renewable in
  (* Step 5: compare *)
  let total_baseline_energy := np_sum baseline_energy_consumption in
  let total_optimized_energy := np_sum optimized_energy_consumption in
  let total_baseline_cost := np_sum baseline_cost in
  let total_optimized_cost := np_sum optimized_cost in
  let total_baseline_emissions := np_sum baseline_emissions in
  let total_optimized_emissions := np_sum optimized_emissions in
  let emissions_reduction :=
    arith Qminus total_baseline_emissions total_optimized_emissions in
  let carbon_footprint_impact :=
    if ne total_baseline_emissions (Some 0)
    then arith Qmult (arith Qdiv emissions_reduction total_baseline_emissions)
                     (Some 100)
    else Some 0 in
  {| total_baseline_energy := total_baseline_energy;
     total_optimized_energy := total_optimized_energy;
     energy_savings := arith Qminus total_baseline_energy total_optimized_energy;
     total_baseline_cost := total_baseline_cost;
     total_optimized_cost := total_optimized_cost;
     cost_savings := arith Qminus total_baseline_cost total_optimized_cost;
     total_baseline_emissions := total_baseline_emissions;
     total_optimized_emissions := total_optimized_emissions;
     emissions_reduction := emissions_reduction;
     carbon_footprint_impact := carbon_footprint_impact;
     df := <[PRICE := map to_cell energy_prices]>
           (<[RENEWABLE :=
                map (fun a => to_cell (arith Qmult a (Some 100)))
                    renewable_availability]>
           (<[energy_simulation.OPTIMIZED_ENERGY_KWH :=
                map to_cell optimized_energy_consumption]>
           (<[energy_simulation.BASELINE_ENERGY_KWH :=
                map to_cell baseline_energy_consumption]>
           (<[TIMESTAMP := timestamps]> ∅)))) |}.

Definition simulate (timestamps : Series)
    (energy_prices renewable_pct workload_energy : list float)
    (renewable_threshold emission_factor_non_renewable emission_factor_renewable : Q)
    : result results :=
  let renewable_availability :=
    map (fun x => arith Qdiv x (Some 100)) renewable_pct in
  let? optimized :=
    optimize_workload_schedule (length timestamps) workload_energy
                               renewable_availability renewable_threshold in
  Ok (compare_results timestamps energy_prices renewable_availability
                      workload_energy optimized
                      emission_factor_non_renewable emission_factor_renewable).

(** [run_simulation]: the lookups and the TypeError on a str as in
    [energy_simulation.run_simulation]; a NaN cell goes on as a float. *)
Definition run_simulation (data : DataFrame)
    (renewable_threshold emission_factor_non_renewable emission_factor_renewable : Q)
    : result results :=
  let? timestamps := energy_simulation.column data TIMESTAMP in
  let? price_column := energy_simulation.column data PRICE in
  let? renewable_column := energy_simulation.column data RENEWABLE in
  let? _ := energy_simulation.no_text renewable_column in
  let? workload_column := energy_simulation.column data WORKLOAD in
  let? _ := energy_simulation.no_text workload_column in
  let? _ := energy_simulation.no_text price_column in
  simulate timestamps (floats price_column) (floats renewable_column)
           (floats workload_column)
           renewable_threshold emission_factor_non_renewable emission_factor_renewable.

End with_nan.

(** A finite schedule and finite results as arrays of floats. *)
Definition embed_schedule (st : energy_simulation.schedule) : with_nan.schedule :=
  {| with_nan.optimized_workload_energy :=
       map Some (energy_simulation.optimized_workload_energy st);
     with_nan.energy_to_shift := Some (energy_simulation.energy_to_shift st) |}.




Definition nan_availability_table : DataFrame :=
  <[RENEWABLE := [Num 50; NaN; Num 30]]>
  (<[WORKLOAD := [Num 0; Num 0; Num 0]]> scenario_table).

Definition negative_availability_table : DataFrame :=
  <[RENEWABLE := [Num 50; Num (-100)]]>
  (<[WORKLOAD := [Num 10; Num 10]]>
  (<[PRICE := [Num 0.1; Num 0.1]]>
  (<[TIMESTAMP := [Text "2024-01-01 00:00"; Text "2024-01-01 01:00"]]> ∅))).

(** ** Step 3 on a workload column of integer dtype *)

(** [read_csv] gives a column of whole numbers the dtype int64, and the copy
    that step 3 updates in place has the dtype of the workload column.  The
    updates [optimized_workload_energy[i] += shift_amount] and [-= reduction]
    compute a float and assign it into that copy: a float64 array keeps the
    float, an int64 array keeps its integer part.  [energy_simulation] reads
    the column as float64; here the dtype is a parameter.  The columns hold
    finite numbers. *)
Module in_place.

Inductive dtype : Type :=
  | float64
  | int64.

(** What an array of dtype [d] keeps when the float [x] is assigned into it:
    for int64 the truncation toward zero. *)
Definition cast (d : dtype) (x : Q) : Q :=
  match d with
  | float64 => x
  | int64 => inject_Z (Z.quot (Qnum x) (Zpos (Qden x)))
  end.

(** Body of the loop "increase workload during optimal hours". *)
Definition increase_body (d : dtype) (optimal : list bool) (workload_energy : list Q)
    (i : nat) (st : energy_simulation.schedule)
    : result (energy_simulation.schedule * bool) :=
  let? o := energy_simulation.index optimal i in
  if o : bool then
    let? w := energy_simulation.index workload_energy i in
    let max_additional_energy := w * 0.2 in
    let shift_amount :=
      energy_simulation.py_min (energy_simulation.energy_to_shift st)
                               max_additional_energy in
    let? cur :=
      energy_simulation.index (energy_simulation.optimized_workload_energy st) i in
    let st' :=
      {| energy_simulation.optimized_workload_energy :=
           <[i := cast d (cur + shift_amount)]>
             (energy_simulation.optimized_workload_energy st);
         energy_simulation.energy_to_shift :=
           energy_simulation.energy_to_shift st - shift_amount |} in
    Ok (st', Qle_bool (energy_simulation.energy_to_shift st') 0)
  else Ok (st, false).

(** Body of the loop "decrease workload during non-optimal hours". *)
Definition decrease_body (d : dtype) (optimal : list bool) (workload_energy : list Q)
    (i : nat) (st : energy_simulation.schedule)
    : result (energy_simulation.schedule * bool) :=
  let? o := energy_simulation.index optimal i in
  if negb o then
    let? w := energy_simulation.index workload_energy i in
    let reduction := w * 0.1 in
    let? cur :=
      energy_simulation.index (energy_simulation.optimized_workload_energy st) i in
    Ok ({| energy_simulation.optimized_workload_energy :=
             <[i := cast d (cur - reduction)]>
               (energy_simulation.optimized_workload_energy st);
           energy_simulation.energy_to_shift :=
             energy_simulation.energy_to_shift st |}, false)
  else Ok (st, false).

(** Step 3, through [np.maximum(..., 0)]. *)
Definition optimize_workload_schedule (d : dtype) (n : nat)
    (workload_energy renewable_availability : list Q) (renewable_threshold : Q)
    : result (list Q) :=
  let optimal :=
    energy_simulation.optimal_hours renewable_availability renewable_threshold in
  let start :=
    {| energy_simulation.optimized_workload_energy := workload_energy;
       energy_simulation.energy_to_shift :=
         energy_simulation.total_energy_to_shift workload_energy
           renewable_availability optimal renewable_threshold |} in
  let? increased :=
    energy_simulation.for_range (increase_body d optimal workload_energy)
                                (seq 0 n) start in
  let? decreased :=
    energy_simulation.for_range (decrease_body d optimal workload_energy)
                                (seq 0 n) increased in
  Ok (map energy_simulation.maximum0
          (energy_simulation.optimized_workload_energy decreased)).

End in_place.

(** A value that an array of dtype [d] can hold: any float, or a whole
    number. *)
Definition of_dtype (d : in_place.dtype) (x : Q) : Prop :=
  match d with
  | in_place.float64 => True
  | in_place.int64 => exists k : Z, x == inject_Z k
  end.

(** * Properties *)

(** ** The loops of step 3 as recursions over the slots *)

Import energy_simulation.

Fixpoint increase (optimal : list bool) (workload current : list Q) (e : Q) : schedule :=
  match optimal, workload, current with
  | o :: optimal', w :: workload', c :: current' =>
      if o then
        let shift := py_min e (w * 0.2) in
        if Qle_bool (e - shift) 0
        then {| optimized_workload_energy := (c + shift) :: current';
                energy_to_shift := e - shift |}
        else
          let r := increase optimal' workload' current' (e - shift) in
          {| optimized_workload_energy := (c + shift) :: optimized_workload_energy r;
             energy_to_shift := energy_to_shift r |}
      else
        let r := increase optimal' workload' current' e in
        {| optimized_workload_energy := c :: optimized_workload_energy r;
           energy_to_shift := energy_to_shift r |}
  | _, _, _ => {| optimized_workload_energy := current; energy_to_shift := e |}
  end.

Fixpoint decrease (optimal : list bool) (workload current : list Q) : list Q :=
  match optimal, workload, current with
  | o :: optimal', w :: workload', c :: current' =>
      (if negb o then c - w * 0.1 else c) :: decrease optimal' workload' current'
  | _, _, _ => current
  end.

Lemma insert_middle {A} (l1 l2 : list A) (x y : A) :
  <[length l1 := y]> (l1 ++ x :: l2) = l1 ++ y :: l2.
Proof.
  rewrite <- (Nat.add_0_r (length l1)). now rewrite insert_app_r.
Qed.

Lemma index_middle {A} (l1 l2 : list A) (x : A) (n : nat) :
  n = length l1 -> index (l1 ++ x :: l2) n = Ok x.
Proof.
  intros Hn. unfold index. now rewrite list_lookup_middle.
Qed.

Lemma snoc_app {A} (l1 l2 : list A) (x : A) : l1 ++ x :: l2 = (l1 ++ [x]) ++ l2.
Proof. now rewrite <- app_assoc. Qed.

Lemma for_range_increase (current : list Q) :
  forall (optimal : list bool) (workload : list Q) (e : Q)
         (po : list bool) (pw pc : list Q),
    length po = length pc -> length pw = length pc ->
    length optimal = length current -> length workload = length current ->
    for_range (increase_body (po ++ optimal) (pw ++ workload))
              (seq (length pc) (length current))
              {| optimized_workload_energy := pc ++ current; energy_to_shift := e |}
    = Ok {| optimized_workload_energy :=
              pc ++ optimized_workload_energy (increase optimal workload current e);
            energy_to_shift := energy_to_shift (increase optimal workload current e) |}.
Proof.
  induction current as [|c current IH]; intros optimal workload e po pw pc Hpo Hpw Ho Hw.
  - destruct optimal, workload; try discriminate. reflexivity.
  - destruct optimal as [|o optimal]; [discriminate|].
    destruct workload as [|w workload]; [discriminate|].
    injection Ho as Ho. injection Hw as Hw.
    cbn [length seq for_range]. unfold increase_body at 1.
    rewrite (index_middle po) by (symmetry; exact Hpo). cbn [rbind].
    destruct o.
    + rewrite (index_middle pw) by (symmetry; exact Hpw).
      cbn [rbind optimized_workload_energy energy_to_shift].
      rewrite (index_middle pc) by reflexivity.
      cbn [rbind]. rewrite insert_middle.
      cbn [increase].
      destruct (Qle_bool (e - py_min e (w * 0.2)) 0) eqn:Hbreak.
      * reflexivity.
      * rewrite (snoc_app po), (snoc_app pw), (snoc_app pc).
        replace (S (length pc)) with (length (pc ++ [c + py_min e (w * 0.2)]))
          by (rewrite length_app; cbn; lia).
        rewrite IH; rewrite ?length_app; cbn [length]; try lia.
        now rewrite <- app_assoc.
    + cbn [increase].
      rewrite (snoc_app po), (snoc_app pw), (snoc_app pc).
      replace (S (length pc)) with (length (pc ++ [c]))
        by (rewrite length_app; cbn; lia).
      rewrite IH; rewrite ?length_app; cbn [length]; try lia.
      now rewrite <- app_assoc.
Qed.

Lemma for_range_decrease (current : list Q) :
  forall (optimal : list bool) (workload : list Q) (e : Q)
         (po : list bool) (pw pc : list Q),
    length po = length pc -> length pw = length pc ->
    length optimal = length current -> length workload = length current ->
    for_range (decrease_body (po ++ optimal) (pw ++ workload))
              (seq (length pc) (length current))
              {| optimized_workload_energy := pc ++ current; energy_to_shift := e |}
    = Ok {| optimized_workload_energy := pc ++ decrease optimal workload current;
            energy_to_shift := e |}.
Proof.
  induction current as [|c current IH]; intros optimal workload e po pw pc Hpo Hpw Ho Hw.
  - destruct optimal, workload; try discriminate. reflexivity.
  - destruct optimal as [|o optimal]; [discriminate|].
    destruct workload as [|w workload]; [discriminate|].
    injection Ho as Ho. injection Hw as Hw.
    cbn [length seq for_range]. unfold decrease_body at 1.
    rewrite (index_middle po) by (symmetry; exact Hpo). cbn [rbind].
    destruct o; cbn [negb decrease].
    + rewrite (snoc_app po), (snoc_app pw), (snoc_app pc).
      replace (S (length pc)) with (length (pc ++ [c]))
        by (rewrite length_app; cbn; lia).
      rewrite IH; rewrite ?length_app; cbn [length]; try lia.
      now rewrite <- app_assoc.
    + rewrite (index_middle pw) by (symmetry; exact Hpw).
      cbn [rbind optimized_workload_energy energy_to_shift].
      rewrite (index_middle pc) by reflexivity.
      cbn [rbind]. rewrite insert_middle.
      rewrite (snoc_app po), (snoc_app pw), (snoc_app pc).
      replace (S (length pc)) with (length (pc ++ [c - w * 0.1]))
        by (rewrite length_app; cbn; lia).
      rewrite IH; rewrite ?length_app; cbn [length]; try lia.
      now rewrite <- app_assoc.
Qed.

Lemma length_increase (optimal : list bool) (workload current : list Q) (e : Q) :
  length (optimized_workload_energy (increase optimal workload current e))
  = length current.
Proof.
  revert optimal workload e.
  induction current as [|c current IH]; intros [|o optimal] [|w workload] e;
    cbn; try reflexivity.
  destruct o; [destruct (Qle_bool _ 0)|]; cbn; now rewrite ?IH.
Qed.

Lemma length_optimal_hours (availability : list Q) (t : Q) :
  length (optimal_hours availability t) = length availability.
Proof. unfold optimal_hours. apply length_map. Qed.

(** Both loops run to their end on arrays of one length. *)
Lemma increase_loop_returns (workload availability : list Q) (t e : Q) :
  length availability = length workload ->
  for_range (increase_body (optimal_hours availability t) workload)
            (seq 0 (length workload))
            {| optimized_workload_energy := workload; energy_to_shift := e |}
  = Ok (increase (optimal_hours availability t) workload workload e).
Proof.
  intros Hlen.
  pose proof (for_range_increase workload (optimal_hours availability t) workload e
                                 [] [] []) as H.
  cbn [app length] in H. rewrite H.
  - now destruct (increase _ _ _ _).
  - reflexivity.
  - reflexivity.
  - now rewrite length_optimal_hours.
  - reflexivity.
Qed.

Lemma decrease_loop_returns (optimal : list bool) (workload : list Q) (st : schedule) :
  length optimal = length workload ->
  length (optimized_workload_energy st) = length workload ->
  for_range (decrease_body optimal workload) (seq 0 (length workload)) st
  = Ok {| optimized_workload_energy :=
            decrease optimal workload (optimized_workload_energy st);
          energy_to_shift := energy_to_shift st |}.
Proof.
  intros Ho Hc. destruct st as [current e]. cbn in *.
  pose proof (for_range_decrease current optimal workload e [] [] []) as H.
  cbn [app length] in H. rewrite Hc in H. apply H; congruence.
Qed.

Lemma optimize_workload_schedule_returns (workload availability : list Q) (t : Q) :
  length availability = length workload ->
  optimize_workload_schedule (length workload) workload availability t
  = Ok (map maximum0
          (decrease (optimal_hours availability t) workload
             (optimized_workload_energy
                (increase (optimal_hours availability t) workload workload
                   (total_energy_to_shift workload availability
                      (optimal_hours availability t) t))))).
Proof.
  intros Hlen. unfold optimize_workload_schedule.
  rewrite increase_loop_returns by exact Hlen. cbn [rbind].
  rewrite decrease_loop_returns.
  - reflexivity.
  - now rewrite length_optimal_hours.
  - apply length_increase.
Qed.

(** ** Reading the table *)

Lemma no_text_num (l : list Q) : no_text (map Num l) = Ok tt.
Proof.
  unfold no_text.
  replace (existsb is_text (map Num l)) with false; [reflexivity|].
  induction l as [|x l IH]; cbn; [reflexivity | exact IH].
Qed.

Lemma finite_num (l : list Q) : finite (map Num l) = Ok l.
Proof.
  unfold finite. induction l as [|x l IH]; cbn; [reflexivity|].
  now rewrite IH.
Qed.

Lemma run_simulation_observations data ts prices ra w t efn efr :
  observations data ts prices ra w ->
  run_simulation data t efn efr = simulate ts prices ra w t efn efr.
Proof.
  intros [Hts Hp Hr Hw _ _ _]. unfold run_simulation, column.
  rewrite Hts, Hp, Hr, Hw. cbn [rbind].
  rewrite !no_text_num. cbn [rbind].
  rewrite !finite_num. reflexivity.
Qed.

Lemma simulate_returns ts prices ra w t efn efr :
  length ra = length ts -> length w = length ts ->
  simulate ts prices ra w t efn efr
  = Ok (compare_results ts prices (fractions ra) w
          (map maximum0
             (decrease (optimal_hours (fractions ra) t) w
                (optimized_workload_energy
                   (increase (optimal_hours (fractions ra) t) w w
                      (total_energy_to_shift w (fractions ra)
                         (optimal_hours (fractions ra) t) t)))))
          efn efr).
Proof.
  intros Hr Hw. unfold simulate. fold (fractions ra). rewrite <- Hw.
  rewrite optimize_workload_schedule_returns; [reflexivity|].
  unfold fractions. rewrite length_map. congruence.
Qed.

(** ** Sums *)

Lemma fold_left_Qplus_from (l : list Q) (a : Q) :
  fold_left Qplus l a == a + fold_left Qplus l 0.
Proof.
  revert a. induction l as [|x l IH]; intros a; cbn.
  - ring.
  - rewrite (IH (a + x)), (IH (0 + x)). ring.
Qed.

Lemma np_sum_cons (x : Q) (l : list Q) : np_sum (x :: l) == x + np_sum l.
Proof.
  unfold np_sum. cbn. rewrite fold_left_Qplus_from. ring.
Qed.

Lemma np_sum_equiv (l1 l2 : list Q) : Forall2 Qeq l1 l2 -> np_sum l1 == np_sum l2.
Proof.
  induction 1 as [|x y l1 l2 Hxy _ IH]; [reflexivity|].
  rewrite !np_sum_cons, Hxy, IH. reflexivity.
Qed.

Lemma np_sum_zero (l : list Q) : Forall (fun x => x == 0) l -> np_sum l == 0.
Proof.
  induction 1 as [|x l Hx _ IH]; [reflexivity|].
  rewrite np_sum_cons, Hx, IH. ring.
Qed.

Lemma series_sum_from_num (l : list Q) (acc : Q) :
  series_sum_from acc (map Num l) = Ok (fold_left Qplus l acc).
Proof.
  revert acc. induction l as [|x l IH]; intros acc; cbn; [reflexivity | apply IH].
Qed.

Lemma series_sum_num (l : list Q) : series_sum (map Num l) = Ok (np_sum l).
Proof. apply series_sum_from_num. Qed.

(** ** Step 3 *)


Lemma maximum0_id (x : Q) : 0 <= x -> maximum0 x = x.
Proof.
  intros H. unfold maximum0. apply Qle_bool_iff in H. now rewrite H.
Qed.

Lemma optimal_hours_all (availability : list Q) (t : Q) :
  Forall (fun a => t <= a) availability ->
  optimal_hours availability t = repeat true (length availability).
Proof.
  induction 1 as [|a l Ha _ IH]; [reflexivity|].
  cbn. apply Qle_bool_iff in Ha. rewrite Ha. f_equal. exact IH.
Qed.

Lemma select_none {A} (n : nat) (l : list A) : select (repeat false n) l = [].
Proof.
  revert l. induction n as [|n IH]; intros [|x l]; cbn; auto.
Qed.

Lemma negb_repeat (b : bool) (n : nat) : map negb (repeat b n) = repeat (negb b) n.
Proof. induction n as [|n IH]; cbn; [reflexivity | now rewrite IH]. Qed.

Lemma decrease_all_optimal (n : nat) (workload current : list Q) :
  decrease (repeat true n) workload current = current.
Proof.
  revert workload current.
  induction n as [|n IH]; intros [|w workload] [|c current]; cbn; try reflexivity.
  now rewrite IH.
Qed.

Lemma fractions_nonneg (ra : list Q) :
  Forall (fun a => 0 <= a) ra -> Forall (fun a => 0 <= a) (fractions ra).
Proof.
  induction 1 as [|a l Ha _ IH]; cbn; constructor; [|exact IH].
  apply Qle_shift_div_l; lra.
Qed.

Lemma length_fractions (ra : list Q) : length (fractions ra) = length ra.
Proof. apply length_map. Qed.

(** The columns of the table returned by the engine. *)
Lemma df_optimized ts prices av w opt efn efr :
  df (compare_results ts prices av w opt efn efr) !! OPTIMIZED_ENERGY_KWH
  = Some (map Num opt).
Proof. reflexivity. Qed.

Lemma df_baseline ts prices av w opt efn efr :
  df (compare_results ts prices av w opt efn efr) !! BASELINE_ENERGY_KWH
  = Some (map Num w).
Proof. reflexivity. Qed.

Lemma emissions_cons (x a : Q) (w av : list Q) (efn efr : Q) :
  emissions (x :: w) (a :: av) efn efr
  = ((x - x * a) * efn + (x * a) * efr) :: emissions w av efn efr.
Proof. reflexivity. Qed.

Lemma emissions_zero (w av : list Q) (efn efr : Q) :
  Forall (fun x => x == 0) w -> Forall (fun x => x == 0) (emissions w av efn efr).
Proof.
  intros Hw. revert av.
  induction Hw as [|x w Hx _ IH]; intros [|a av]; try (cbn; constructor).
  - rewrite Hx. ring.
  - apply IH.
Qed.

Lemma decrease_optimal_slot (optimal : list bool) (workload current : list Q) (i : nat) :
  optimal !! i = Some true ->
  decrease optimal workload current !! i = current !! i.
Proof.
  revert optimal workload current.
  induction i as [|i IH]; intros [|o optimal] [|w workload] [|c current] Ho;
    cbn in *; try reflexivity; try discriminate.
  - injection Ho as ->. reflexivity.
  - now apply IH.
Qed.

(** What the engine returns on a table of observations. *)
Lemma run_simulation_returns data ts prices ra w t efn efr :
  observations data ts prices ra w ->
  run_simulation data t efn efr
  = Ok (compare_results ts prices (fractions ra) w
          (map maximum0
             (decrease (optimal_hours (fractions ra) t) w
                (optimized_workload_energy
                   (increase (optimal_hours (fractions ra) t) w w
                      (total_energy_to_shift w (fractions ra)
                         (optimal_hours (fractions ra) t) t)))))
          efn efr).
Proof.
  intros Hobs. rewrite (run_simulation_observations _ _ _ _ _ _ _ _ Hobs).
  destruct Hobs. now apply simulate_returns.
Qed.

(** * The claims *)

(** C1.  The scenario of three slots: workload [10, 10, 10] kWh, availability
    [80, 50, 30] %, threshold 0.7, price 0.1, emission factors 0.5 and 0.02.
    Slot 1 is optimal and slots 2 and 3 are not; the deficit is 6; slot 1
    receives 2 kWh, its cap of 20%, and the remaining 4 are dropped; slots 2
    and 3 lose 10% each; the engine returns the per-slot optimized energy
    [12, 9, 9], a total optimized energy of 30 kWh equal to the baseline total,
    and energy savings of 0. *)
Theorem scenario_three_slots :
  let availability := fractions scenario_availability in
  let optimal := optimal_hours availability 0.7 in
  let deficit := total_energy_to_shift scenario_workload availability optimal 0.7 in
  optimal = [true; false; false] /\
  deficit == 6 /\
  py_min deficit (10 * 0.2) == 2 /\
  (exists increased decreased,
     for_range (increase_body optimal scenario_workload) (seq 0 3)
       {| optimized_workload_energy := scenario_workload;
          energy_to_shift := deficit |} = Ok increased /\
     Forall2 Qeq (optimized_workload_energy increased) [12; 10; 10] /\
     energy_to_shift increased == 4 /\
     for_range (decrease_body optimal scenario_workload) (seq 0 3) increased
       = Ok decreased /\
     Forall2 Qeq (optimized_workload_energy decreased) [12; 9; 9]) /\
  exists r column,
    run_simulation scenario_table 0.7 0.5 0.02 = Ok r /\
    df r !! OPTIMIZED_ENERGY_KWH = Some column /\
    series_equiv column (map Num [12; 9; 9]) /\
    total_optimized_energy r == 30 /\
    total_baseline_energy r == 30 /\
    energy_savings r == 0.
Proof.
  cbv zeta. split; [reflexivity|]. split; [reflexivity|]. split; [reflexivity|].
  split.
  - destruct (for_range (increase_body _ _) _ _) as [increased|e] eqn:Hinc;
      vm_compute in Hinc; [|discriminate].
    injection Hinc as <-.
    eexists. eexists. split; [reflexivity|].
    split; [repeat constructor|]. split; [reflexivity|].
    split; [vm_compute; reflexivity|].
    repeat constructor.
  - destruct (run_simulation scenario_table 0.7 0.5 0.02) as [r|e] eqn:Hrun;
      vm_compute in Hrun; [|discriminate].
    injection Hrun as <-.
    eexists. eexists. split; [reflexivity|].
    split; [vm_compute; reflexivity|].
    split; [repeat constructor|].
    repeat split.
Qed.

(** C3.  With threshold 0, on a table whose availabilities lie in [0,100] and
    whose workloads are non-negative: every slot is optimal, the deficit of
    step 2 is zero, the loop of the flat 10% reduction changes nothing, and the
    optimized energy equals the baseline energy, slot by slot and in total. *)
Theorem zero_threshold_keeps_baseline data ts prices ra w efn efr :
  observations data ts prices ra w ->
  Forall (fun a => 0 <= a <= 100) ra ->
  Forall (fun x => 0 <= x) w ->
  let availability := fractions ra in
  let optimal := optimal_hours availability 0 in
  let deficit := total_energy_to_shift w availability optimal 0 in
  Forall (fun o => o = true) optimal /\
  deficit == 0 /\
  exists increased r optimized,
    for_range (increase_body optimal w) (seq 0 (length ts))
      {| optimized_workload_energy := w; energy_to_shift := deficit |}
      = Ok increased /\
    for_range (decrease_body optimal w) (seq 0 (length ts)) increased
      = Ok increased /\
    run_simulation data 0 efn efr = Ok r /\
    df r !! OPTIMIZED_ENERGY_KWH = Some (map Num optimized) /\
    df r !! BASELINE_ENERGY_KWH = Some (map Num w) /\
    Forall2 Qeq optimized w /\
    total_optimized_energy r == total_baseline_energy r.
Proof.
  intros Hobs Hra Hw. cbv zeta.
  assert (Hav : Forall (fun a => 0 <= a) (fractions ra)).
  { apply fractions_nonneg. eapply Forall_impl; [exact Hra|]. cbn. intros a Ha. lra. }
  pose proof (optimal_hours_all _ _ Hav) as Hopt.
  assert (Hdef : total_energy_to_shift w (fractions ra)
                   (optimal_hours (fractions ra) 0) 0 = 0).
  { unfold total_energy_to_shift. rewrite Hopt, negb_repeat. cbn [negb].
    now rewrite !select_none. }
  assert (Hlen : length (fractions ra) = length w).
  { rewrite length_fractions. destruct Hobs. congruence. }
  assert (Hts : length ts = length w) by (destruct Hobs; congruence).
  split.
  { rewrite Hopt. clear. induction (length (fractions ra)); constructor; auto. }
  split.
  { now rewrite Hdef. }
  rewrite Hdef, Hts.
  (* the first loop adds nothing and stops at the first slot *)
  assert (Hinc : exists current,
             increase (optimal_hours (fractions ra) 0) w w 0
             = {| optimized_workload_energy := current; energy_to_shift := 0 - 0 |}
               /\ Forall2 Qeq current w /\ Forall (fun x => 0 <= x) current
             \/ w = [] /\ current = []
                /\ increase (optimal_hours (fractions ra) 0) w w 0
                   = {| optimized_workload_energy := []; energy_to_shift := 0 |}).
  { rewrite Hopt. destruct Hw as [|x w Hx Hw].
    - exists []. right. now destruct (length (fractions ra)).
    - destruct (fractions ra) as [|a av]; [discriminate|].
      exists ((x + 0) :: w). left. cbn.
      assert (Hmin : py_min 0 (x * 0.2) = 0).
      { unfold py_min. replace (Qle_bool 0 (x * 0.2)) with true; [reflexivity|].
        symmetry. apply Qle_bool_iff. lra. }
      rewrite Hmin. cbn. split; [reflexivity|]. split.
      + constructor; [ring|]. clear. induction w; constructor; [reflexivity|assumption].
      + constructor; [lra | exact Hw]. }
  destruct Hinc as [current Hinc].
  rewrite (run_simulation_returns _ _ _ _ _ _ _ _ Hobs), Hdef.
  rewrite increase_loop_returns by exact Hlen.
  destruct Hinc as [(Hinc & Heq & Hpos) | (-> & -> & Hinc)]; rewrite Hinc.
  - exists {| optimized_workload_energy := current; energy_to_shift := 0 - 0 |}.
    eexists. exists current.
    split; [reflexivity|].
    split.
    { rewrite decrease_loop_returns.
      - rewrite Hopt. cbn. now rewrite decrease_all_optimal.
      - now rewrite length_optimal_hours.
      - cbn. symmetry. eapply Forall2_length. apply Forall2_flip in Heq. exact Heq. }
    split; [reflexivity|].
    assert (Hfinal : map maximum0
                       (decrease (optimal_hours (fractions ra) 0) w current) = current).
    { rewrite Hopt, decrease_all_optimal.
      clear -Hpos. induction Hpos as [|x l Hx _ IH]; cbn; [reflexivity|].
      now rewrite IH, maximum0_id. }
    cbn [optimized_workload_energy]. rewrite df_optimized, df_baseline, Hfinal.
    split; [reflexivity|]. split; [reflexivity|]. split; [exact Heq|].
    cbn. now apply np_sum_equiv.
  - exists {| optimized_workload_energy := []; energy_to_shift := 0 |}.
    eexists. exists [].
    split; [reflexivity|]. split; [reflexivity|]. split; [reflexivity|].
    rewrite df_optimized, df_baseline, Hopt, decrease_all_optimal.
    repeat split; try reflexivity.
Qed.

Lemma zero_threshold_keeps_baseline_witness :
  exists r optimized,
    run_simulation scenario_table 0 0.5 0.02 = Ok r /\
    df r !! OPTIMIZED_ENERGY_KWH = Some (map Num optimized) /\
    Forall2 Qeq optimized scenario_workload /\
    total_optimized_energy r == total_baseline_energy r.
Proof.
  destruct (zero_threshold_keeps_baseline scenario_table scenario_timestamps
              scenario_prices scenario_availability scenario_workload 0.5 0.02)
    as (_ & _ & increased & r & optimized & _ & _ & Hrun & Hcol & _ & Heq & Htot).
  - constructor; reflexivity.
  - unfold scenario_availability. repeat constructor; cbn; lra.
  - unfold scenario_workload. repeat constructor; cbn; lra.
  - exists r, optimized. repeat split; assumption.
Defined.


(** C7, as the code has it.  A threshold outside [0,1] is not rejected: the
    engine checks no range and, on every table of observations, runs to its
    end and returns its results for such a threshold as for any other. *)
Theorem out_of_range_threshold_runs data ts prices ra w t efn efr :
  observations data ts prices ra w ->
  t < 0 \/ 1 < t ->
  exists r, run_simulation data t efn efr = Ok r.
Proof.
  intros Hobs _. rewrite (run_simulation_returns _ _ _ _ _ _ _ _ Hobs).
  eexists. reflexivity.
Qed.

Lemma out_of_range_threshold_runs_witness :
  exists r, run_simulation scenario_table (-1) 0.5 0.02 = Ok r.
Proof.
  apply (out_of_range_threshold_runs scenario_table scenario_timestamps
           scenario_prices scenario_availability scenario_workload).
  - constructor; reflexivity.
  - left. reflexivity.
Defined.

(** C7 fails as stated: with threshold 2, outside [0,1], the engine runs on
    the scenario table and returns metric results (27 kWh of optimized
    energy: no slot is optimal and each loses 10%). *)
Lemma threshold_two_is_not_rejected :
  ~ (0 <= 2 <= 1) /\
  exists r,
    run_simulation scenario_table 2 0.5 0.02 = Ok r /\
    total_optimized_energy r == 27.
Proof.
  split.
  - intros [_ H]. revert H. apply Qlt_not_le. reflexivity.
  - destruct (run_simulation scenario_table 2 0.5 0.02) as [r|e] eqn:Hrun;
      vm_compute in Hrun; [|discriminate].
    injection Hrun as <-. eexists. split; reflexivity.
Qed.

(** ** The baseline estimator *)

Import baseline_calculator.

Lemma to_numeric_no_text parse (col : Series) :
  existsb is_text col = false -> to_numeric parse col = col.
Proof.
  unfold to_numeric. induction col as [|c col IH]; cbn; [reflexivity|].
  destruct c; cbn; try discriminate; intros H; f_equal; auto.
Qed.

Lemma to_numeric_num parse (l : list Q) : to_numeric parse (map Num l) = map Num l.
Proof.
  unfold to_numeric. induction l as [|x l IH]; cbn; [reflexivity | now f_equal].
Qed.

(** After the coercion the sum never meets a str. *)
Lemma series_sum_from_coerced parse (col : Series) (acc : Q) :
  exists q, series_sum_from acc (to_numeric parse col) = Ok q.
Proof.
  revert acc. induction col as [|c col IH]; intros acc; cbn.
  - now exists acc.
  - destruct c as [x|s|]; cbn; [apply IH | | apply IH].
    destruct (parse s); apply IH.
Qed.

Lemma calculate_baseline_present parse price ef (data : DataFrame) (col : Series) :
  data !! WORKLOAD = Some col ->
  exists q,
    series_sum (to_numeric parse col) = Ok q /\
    calculate_baseline parse price ef data
    = (<[WORKLOAD := to_numeric parse col]> data,
       Ok {| total_energy := q;
             total_cost := q * price;
             total_emissions := q * ef |}).
Proof.
  intros Hcol.
  destruct (series_sum_from_coerced parse col 0) as [q Hq].
  exists q. split; [exact Hq|].
  unfold calculate_baseline, bind, getitem, setitem, has_column, lift, ret.
  rewrite Hcol. rewrite !lookup_insert_eq.
  rewrite bool_decide_eq_true_2 by (now eexists).
  cbn [negb]. rewrite lookup_insert_eq. unfold series_sum. now rewrite Hq.
Qed.

Lemma calculate_baseline_absent parse price ef (data : DataFrame) :
  data !! WORKLOAD = None ->
  calculate_baseline parse price ef data = (data, Raise (KeyError WORKLOAD)).
Proof.
  intros Hcol. unfold calculate_baseline, bind, getitem. now rewrite Hcol.
Qed.

(** The explicit check of the column is never the one that fails. *)
Lemma calculate_baseline_never_ValueError parse price ef (data : DataFrame) msg :
  snd (calculate_baseline parse price ef data) <> Raise (ValueError msg).
Proof.
  destruct (data !! WORKLOAD) as [col|] eqn:Hcol.
  - destruct (calculate_baseline_present parse price ef data col Hcol) as (q & _ & ->).
    discriminate.
  - rewrite calculate_baseline_absent by exact Hcol. discriminate.
Qed.

(** C5.  On a table whose workload column holds the numbers [w], the
    estimator returns total_energy = the sum of [w], total_cost =
    total_energy * price and total_emissions = total_energy * emission factor;
    the other columns, the renewable availability among them, play no part:
    any table with the same workload column gives the same metrics. *)
Theorem baseline_totals parse (data : DataFrame) (w : list Q) price ef :
  data !! WORKLOAD = Some (map Num w) ->
  exists m,
    snd (calculate_baseline parse price ef data) = Ok m /\
    total_energy m = np_sum w /\
    total_cost m = total_energy m * price /\
    total_emissions m = total_energy m * ef /\
    forall data' : DataFrame,
      data' !! WORKLOAD = Some (map Num w) ->
      snd (calculate_baseline parse price ef data') = Ok m.
Proof.
  intros Hcol.
  assert (Hall : forall d : DataFrame, d !! WORKLOAD = Some (map Num w) ->
            snd (calculate_baseline parse price ef d)
            = Ok {| total_energy := np_sum w;
                    total_cost := np_sum w * price;
                    total_emissions := np_sum w * ef |}).
  { intros d Hd.
    destruct (calculate_baseline_present parse price ef d _ Hd) as (q & Hq & ->).
    rewrite to_numeric_num, series_sum_num in Hq. injection Hq as <-. reflexivity. }
  eexists. split; [now apply Hall|]. cbn. repeat split. exact Hall.
Qed.

Lemma baseline_totals_witness :
  exists m,
    snd (calculate_baseline (fun _ => None) 0.1 0.5 scenario_table) = Ok m /\
    total_energy m = np_sum scenario_workload.
Proof.
  destruct (baseline_totals (fun _ => None) scenario_table scenario_workload 0.1 0.5)
    as (m & Hm & He & _).
  - reflexivity.
  - exists m. split; assumption.
Defined.

(** C6, what the code does.  With no workload column in the table, the
    estimator stops at its first statement, the lookup [data[...]] of the
    coercion, with a KeyError; the table is left as it was and the ValueError
    of the explicit check is not raised. *)
Theorem missing_workload_column_raises_KeyError parse price ef (data : DataFrame) :
  data !! WORKLOAD = None ->
  calculate_baseline parse price ef data = (data, Raise (KeyError WORKLOAD)) /\
  snd (calculate_baseline parse price ef data)
    <> Raise (ValueError MISSING_COLUMN_MESSAGE).
Proof.
  intros Hcol. split.
  - now apply calculate_baseline_absent.
  - apply calculate_baseline_never_ValueError.
Qed.

Lemma missing_workload_column_raises_KeyError_witness :
  calculate_baseline (fun _ => None) 0.1 0.5 no_workload_table
  = (no_workload_table, Raise (KeyError WORKLOAD)).
Proof.
  apply (missing_workload_column_raises_KeyError (fun _ => None) 0.1 0.5
           no_workload_table).
  reflexivity.
Defined.

(** ** The engine's own baseline emissions *)

Lemma emissions_slot_le (x a efn efr : Q) :
  0 <= x -> 0 <= a -> efr <= efn ->
  (x - x * a) * efn + (x * a) * efr <= x * efn.
Proof.
  intros Hx Ha He.
  assert (H : 0 <= (x * a) * (efn - efr)).
  { apply Qmult_le_0_compat; [apply Qmult_le_0_compat; assumption | lra]. }
  lra.
Qed.

Lemma emissions_slot_lt (x a efn efr : Q) :
  0 < x -> 0 < a -> efr < efn ->
  (x - x * a) * efn + (x * a) * efr < x * efn.
Proof.
  intros Hx Ha He.
  assert (H : 0 < (x * a) * (efn - efr)).
  { apply Qmult_lt_0_compat; [apply Qmult_lt_0_compat; assumption | lra]. }
  lra.
Qed.

Lemma emissions_sum_le (w av : list Q) (efn efr : Q) :
  length av = length w ->
  Forall (fun x => 0 <= x) w -> Forall (fun a => 0 <= a) av -> efr <= efn ->
  np_sum (emissions w av efn efr) <= np_sum w * efn.
Proof.
  intros Hlen Hw. revert av Hlen.
  induction Hw as [|x w Hx _ IH]; intros [|a av] Hlen Hav He;
    [change (0 <= 0 * efn); lra | discriminate | discriminate |].
  inversion Hav as [|? ? Ha Hav']; subst.
  rewrite emissions_cons, !np_sum_cons.
  pose proof (emissions_slot_le x a efn efr Hx Ha He).
  assert (np_sum (emissions w av efn efr) <= np_sum w * efn)
    by (apply IH; [now injection Hlen | assumption | assumption]).
  lra.
Qed.

Lemma emissions_sum_lt (w av : list Q) (efn efr : Q) (i : nat) (x a : Q) :
  length av = length w ->
  Forall (fun x => 0 <= x) w -> Forall (fun a => 0 <= a) av -> efr < efn ->
  w !! i = Some x -> av !! i = Some a -> 0 < x -> 0 < a ->
  np_sum (emissions w av efn efr) < np_sum w * efn.
Proof.
  intros Hlen Hw. revert av i Hlen.
  induction Hw as [|y w Hy Hw IH]; intros [|b av] i Hlen Hav He Hwi Hai Hx Ha;
    [discriminate | discriminate | discriminate |].
  inversion Hav as [|? ? Hb Hav']; subst.
  injection Hlen as Hlen.
  rewrite emissions_cons, !np_sum_cons.
  destruct i as [|i]; cbn in Hwi, Hai.
  - injection Hwi as ->. injection Hai as ->.
    pose proof (emissions_slot_lt x a efn efr Hx Ha He).
    assert (np_sum (emissions w av efn efr) <= np_sum w * efn)
      by (apply emissions_sum_le; [assumption | assumption | assumption | lra]).
    lra.
  - assert (efr <= efn) as He' by lra.
    pose proof (emissions_slot_le y b efn efr Hy Hb He').
    assert (np_sum (emissions w av efn efr) < np_sum w * efn)
      by (eapply IH; eassumption).
    lra.
Qed.

Lemma emissions_split (w ra : list Q) (efn efr : Q) :
  Forall2 (fun e p => e == fst p * (1 - snd p / 100) * efn
                           + fst p * (snd p / 100) * efr)
          (emissions w (fractions ra) efn efr)
          (zip w (take (length w) ra)).
Proof.
  revert ra. induction w as [|x w IH]; intros [|a ra]; try (now constructor).
  change (fractions (a :: ra)) with (a / 100 :: fractions ra).
  rewrite emissions_cons. cbn [length take zip_with].
  constructor; [cbn [fst snd]; ring | apply IH].
Qed.

(** C10, with the conditions it needs.  The engine's own baseline emissions
    are the renewable-weighted split, slot by slot: workload * (1 - fraction)
    * non-renewable factor + workload * fraction * renewable factor.  On a
    table of finite numbers in which no workload and no availability is
    negative, with one slot of positive workload and positive availability
    and a non-renewable factor above the renewable one, their total is, in
    exact arithmetic, strictly below the total_emissions the baseline
    estimator returns on the same table with the same non-renewable factor.
    Without the condition on the other slots the order can be reversed. *)
Theorem engine_baseline_emissions_below_estimator
    parse (data : DataFrame) ts prices ra w t price efn efr :
  observations data ts prices ra w ->
  Forall (fun x => 0 <= x) w ->
  Forall (fun a => 0 <= a) ra ->
  (exists i x a, w !! i = Some x /\ ra !! i = Some a /\ 0 < x /\ 0 < a) ->
  efr < efn ->
  exists r m,
    run_simulation data t efn efr = Ok r /\
    snd (calculate_baseline parse price efn data) = Ok m /\
    total_baseline_emissions r = np_sum (emissions w (fractions ra) efn efr) /\
    Forall2 (fun e p => e == fst p * (1 - snd p / 100) * efn
                             + fst p * (snd p / 100) * efr)
            (emissions w (fractions ra) efn efr) (zip w ra) /\
    total_emissions m = np_sum w * efn /\
    total_baseline_emissions r < total_emissions m.
Proof.
  intros Hobs Hw Hra (i & x & a & Hwi & Hai & Hx & Ha) He.
  rewrite (run_simulation_returns _ _ _ _ _ _ _ _ Hobs).
  destruct (calculate_baseline_present parse price efn data _ (obs_workload _ _ _ _ _ Hobs))
    as (q & Hq & ->).
  rewrite to_numeric_num, series_sum_num in Hq. injection Hq as <-.
  assert (Hlen : length ra = length w) by (destruct Hobs; congruence).
  eexists. eexists. split; [reflexivity|]. split; [reflexivity|].
  split; [reflexivity|]. split.
  { pose proof (emissions_split w ra efn efr) as H.
    rewrite <- Hlen in H. now rewrite firstn_all in H. }
  split; [reflexivity|].
  cbn [total_baseline_emissions compare_results total_emissions].
  apply (emissions_sum_lt w (fractions ra) efn efr i x (a / 100)).
  - now rewrite length_fractions.
  - exact Hw.
  - now apply fractions_nonneg.
  - exact He.
  - exact Hwi.
  - unfold fractions. now rewrite list_lookup_fmap, Hai.
  - exact Hx.
  - apply Qlt_shift_div_l; lra.
Qed.

Lemma engine_baseline_emissions_below_estimator_witness :
  exists r m,
    run_simulation scenario_table 0.7 0.5 0.02 = Ok r /\
    snd (calculate_baseline (fun _ => None) 0.1 0.5 scenario_table) = Ok m /\
    total_baseline_emissions r < total_emissions m.
Proof.
  destruct (engine_baseline_emissions_below_estimator (fun _ => None)
              scenario_table scenario_timestamps scenario_prices
              scenario_availability scenario_workload 0.7 0.1 0.5 0.02)
    as (r & m & Hr & Hm & _ & _ & _ & Hlt).
  - constructor; reflexivity.
  - unfold scenario_workload. repeat constructor; cbn; lra.
  - unfold scenario_availability. repeat constructor; cbn; lra.
  - exists 0%nat, 10, 80. repeat split; reflexivity.
  - reflexivity.
  - exists r, m. repeat split; assumption.
Defined.

(** C10 fails as stated.  Slot 1 has a positive workload and a positive
    availability and the non-renewable factor is above the renewable one, yet
    with an availability of -100 in slot 2 the engine's baseline emissions
    (12.4) are above the estimator's total emissions (10). *)
Lemma negative_availability_reverses_the_order :
  negative_availability_table !! WORKLOAD = Some (map Num [10; 10]) /\
  negative_availability_table !! RENEWABLE = Some (map Num [50; -100]) /\
  0 < 10 /\ 0 < 50 /\ 0.02 < 0.5 /\
  exists r m,
    run_simulation negative_availability_table 0.7 0.5 0.02 = Ok r /\
    snd (calculate_baseline (fun _ => None) 0.1 0.5 negative_availability_table)
      = Ok m /\
    total_emissions m < total_baseline_emissions r.
Proof.
  split; [reflexivity|]. split; [reflexivity|].
  split; [reflexivity|]. split; [reflexivity|]. split; [reflexivity|].
  destruct (run_simulation negative_availability_table 0.7 0.5 0.02)
    as [r|e] eqn:Hrun; vm_compute in Hrun; [|discriminate].
  injection Hrun as <-.
  destruct (snd (calculate_baseline (fun _ => None) 0.1 0.5
                   negative_availability_table)) as [m|e] eqn:Hm;
    vm_compute in Hm; [|discriminate].
  injection Hm as <-.
  eexists. eexists. split; [reflexivity|]. split; [reflexivity|]. reflexivity.
Qed.

(** ** The caller's table after a call *)

Section frame.

Context {A B : Type}.

Lemma assigns_only_ret cols (a : A) : assigns_only cols (ret a).
Proof. now intros data c _. Qed.

Lemma assigns_only_throw cols (e : exn) : assigns_only cols (@throw A e).
Proof. now intros data c _. Qed.

Lemma assigns_only_lift cols (r : result A) : assigns_only cols (lift r).
Proof. now intros data c _. Qed.

Lemma assigns_only_bind cols (m : Py A) (k : A -> Py B) :
  assigns_only cols m -> (forall a, assigns_only cols (k a)) ->
  assigns_only cols (bind m k).
Proof.
  intros Hm Hk data c Hc. unfold bind.
  specialize (Hm data c Hc).
  destruct (m data) as [data' [a|e]]; cbn in *.
  - now rewrite (Hk a data' c Hc).
  - exact Hm.
Qed.

Lemma returns_with_bind (P Q R : DataFrame -> Prop) (m : Py A) (k : A -> Py B) :
  returns_with P m R -> (forall a, returns_with R (k a) Q) ->
  returns_with P (bind m k) Q.
Proof.
  intros Hm Hk data data' b HP. unfold bind.
  destruct (m data) as [data1 [a|e]] eqn:Hrun; [|discriminate].
  intros Hk'. eapply Hk; [|exact Hk']. eapply Hm; eassumption.
Qed.

(** A computation that assigns to no column leaves any property of the
    table as it was. *)
Lemma returns_with_read (P : DataFrame -> Prop) (m : Py A) :
  assigns_only [] m -> returns_with P m P.
Proof.
  intros Hm data data' a HP Hrun.
  assert (E : data' = data).
  { apply map_eq. intros c. specialize (Hm data c). rewrite Hrun in Hm.
    apply Hm. apply not_elem_of_nil. }
  now rewrite E.
Qed.

End frame.

Lemma assigns_only_getitem cols c : assigns_only cols (getitem c).
Proof.
  intros data c' _. unfold getitem. now destruct (data !! c).
Qed.

Lemma assigns_only_has_column cols c : assigns_only cols (has_column c).
Proof. now intros data c' _. Qed.

Lemma assigns_only_setitem cols c s : c ∈ cols -> assigns_only cols (setitem c s).
Proof.
  intros Hin data c' Hc'. unfold setitem. cbn.
  apply lookup_insert_ne. intros ->. contradiction.
Qed.

Lemma returns_with_setitem cols c s :
  returns_with (has_columns cols) (setitem c s) (has_columns (c :: cols)).
Proof.
  intros data data' [] Hcols [= <-]. constructor.
  - rewrite lookup_insert_eq. now eexists.
  - eapply Forall_impl; [exact Hcols|]. cbn. intros c' Hc'.
    rewrite lookup_insert. case_decide; [now eexists | exact Hc'].
Qed.

(** The proof of a frame condition follows the statements of the function. *)
Ltac frame_steps :=
  repeat first
    [ apply assigns_only_bind; [|intros ?]
    | apply assigns_only_getitem
    | apply assigns_only_has_column
    | apply assigns_only_lift
    | apply assigns_only_ret
    | apply assigns_only_throw ].

Lemma assigns_only_emissions_of cols e efn efr :
  assigns_only cols (simulator.emissions_of e efn efr).
Proof. unfold simulator.emissions_of. frame_steps. Qed.

Lemma assigns_only_column_sum cols c : assigns_only cols (simulator.column_sum c).
Proof. unfold simulator.column_sum. frame_steps. Qed.

Lemma assigns_only_scaled_column_sum cols c k :
  assigns_only cols (simulator.scaled_column_sum c k).
Proof. unfold simulator.scaled_column_sum. frame_steps. Qed.

Lemma simulator_assigns_only_derived t p efn efr :
  assigns_only DERIVED (simulator.run_simulation t p efn efr).
Proof.
  unfold simulator.run_simulation.
  repeat first
    [ apply assigns_only_bind; [|intros ?]
    | apply assigns_only_emissions_of
    | apply assigns_only_column_sum
    | apply assigns_only_scaled_column_sum
    | apply assigns_only_getitem
    | apply assigns_only_lift
    | apply assigns_only_ret
    | apply assigns_only_setitem; unfold DERIVED; set_solver ].
Qed.

Lemma simulator_returns_with_derived t p efn efr :
  returns_with (has_columns []) (simulator.run_simulation t p efn efr)
               (has_columns DERIVED).
Proof.
  unfold simulator.run_simulation, DERIVED.
  repeat first
    [ eapply returns_with_bind; [|intros ?]
    | apply returns_with_setitem
    | apply returns_with_read;
      first [ apply assigns_only_emissions_of
            | apply assigns_only_column_sum
            | apply assigns_only_scaled_column_sum
            | apply assigns_only_getitem
            | apply assigns_only_lift
            | apply assigns_only_ret ] ].
Qed.

Lemma workload_not_derived : WORKLOAD ∉ DERIVED.
Proof. apply (bool_decide_unpack _). vm_compute. exact I. Qed.

(** C2, as the code has it.  Both functions assign into the table they are
    given.  [calculate_baseline] puts the numeric coercion of the workload
    column back in its place (the same column when it holds no text), changes
    no other column and adds none.  [simulator.run_simulation] changes no
    column other than 'Baseline Emissions', 'Optimized Energy' and 'Optimized
    Emissions', and when it returns these three are columns of the caller's
    table. *)
Theorem caller_table_after_calls parse price ef t p efn efr (data : DataFrame) :
  fst (calculate_baseline parse price ef data)
    = match data !! WORKLOAD with
      | Some col => <[WORKLOAD := to_numeric parse col]> data
      | None => data
      end /\
  (forall col : Series,
     data !! WORKLOAD = Some col -> existsb is_text col = false ->
     fst (calculate_baseline parse price ef data) = data) /\
  (forall c : string,
     c ∉ DERIVED ->
     fst (simulator.run_simulation t p efn efr data) !! c = data !! c) /\
  (forall r,
     snd (simulator.run_simulation t p efn efr data) = Ok r ->
     has_columns DERIVED (fst (simulator.run_simulation t p efn efr data))).
Proof.
  split; [|split; [|split]].
  - destruct (data !! WORKLOAD) as [col|] eqn:Hcol.
    + now destruct (calculate_baseline_present parse price ef data col Hcol)
        as (q & _ & ->).
    + now rewrite calculate_baseline_absent.
  - intros col Hcol Htext.
    destruct (calculate_baseline_present parse price ef data col Hcol)
      as (q & _ & ->).
    cbn. rewrite to_numeric_no_text by exact Htext. now apply insert_id.
  - intros c Hc. now apply simulator_assigns_only_derived.
  - intros r Hr.
    destruct (simulator.run_simulation t p efn efr data) as [data' res] eqn:Hrun.
    cbn in *. subst res.
    eapply simulator_returns_with_derived; [|exact Hrun]. constructor.
Qed.

Lemma caller_table_after_calls_witness :
  fst (calculate_baseline (fun _ => None) 0.1 0.5 scenario_table) = scenario_table /\
  fst (simulator.run_simulation 0.7 0.1 0.5 0.02 scenario_table) !! WORKLOAD
    = scenario_table !! WORKLOAD /\
  has_columns DERIVED (fst (simulator.run_simulation 0.7 0.1 0.5 0.02 scenario_table)).
Proof.
  destruct (caller_table_after_calls (fun _ => None) 0.1 0.5 0.7 0.1 0.5 0.02
              scenario_table) as (_ & Hbase & Hframe & Hadds).
  split; [|split].
  - apply (Hbase (map Num scenario_workload)); reflexivity.
  - apply Hframe. exact workload_not_derived.
  - destruct (snd (simulator.run_simulation 0.7 0.1 0.5 0.02 scenario_table))
      as [r|e] eqn:Hrun.
    + now apply (Hadds r).
    + vm_compute in Hrun. discriminate.
Defined.

(** C2 fails as stated.  On the scenario table [simulator.run_simulation]
    adds the column 'Optimized Energy', which the table did not have; and
    [calculate_baseline] replaces the text cell of a workload column, however
    pandas reads it. *)
Lemma calls_change_the_input_table :
  (scenario_table !! OPTIMIZED_ENERGY = None /\
   exists column,
     fst (simulator.run_simulation 0.7 0.1 0.5 0.02 scenario_table)
       !! OPTIMIZED_ENERGY = Some column /\
     series_equiv column (map Num [10; 9; 9])) /\
  (text_table !! WORKLOAD = Some [Num 10; Text "n/a"; Num 10] /\
   forall parse,
     fst (calculate_baseline parse 0.1 0.5 text_table) !! WORKLOAD
     <> Some [Num 10; Text "n/a"; Num 10]).
Proof.
  split; split.
  - reflexivity.
  - eexists. split; [vm_compute; reflexivity|]. repeat constructor.
  - reflexivity.
  - intros parse.
    destruct (calculate_baseline_present parse 0.1 0.5 text_table
                [Num 10; Text "n/a"; Num 10] eq_refl) as (q & _ & ->).
    cbn [fst]. rewrite lookup_insert_eq. cbn.
    destruct (parse "n/a"%string); discriminate.
Qed.

(** * Further properties *)

(** ** The table the engine returns *)

Lemma length_decrease (optimal : list bool) (workload current : list Q) :
  length (decrease optimal workload current) = length current.
Proof.
  revert optimal workload.
  induction current as [|c current IH]; intros [|o optimal] [|w workload]; cbn; auto.
Qed.

Lemma np_sum_scale (l : list Q) (k : Q) :
  np_sum (map (fun x => x * k) l) == np_sum l * k.
Proof.
  induction l as [|x l IH]; [cbn; reflexivity|].
  cbn [map]. rewrite !np_sum_cons, IH. ring.
Qed.

(** X5.  On a table of finite numeric columns the table the engine returns is
    a new one of exactly five columns, one entry per row each: the timestamps,
    the workloads (as baseline energy) and the prices are passed through as
    given, beside the optimized energy and the availability. *)
Theorem result_table_columns data ts prices ra w t efn efr :
  observations data ts prices ra w ->
  exists r optimized availability,
    run_simulation data t efn efr = Ok r /\
    dom (df r) = {[TIMESTAMP; BASELINE_ENERGY_KWH; OPTIMIZED_ENERGY_KWH;
                   RENEWABLE; PRICE]} /\
    df r !! TIMESTAMP = Some ts /\
    df r !! BASELINE_ENERGY_KWH = Some (map Num w) /\
    df r !! PRICE = Some (map Num prices) /\
    df r !! OPTIMIZED_ENERGY_KWH = Some (map Num optimized) /\
    df r !! RENEWABLE = Some (map Num availability) /\
    length w = length ts /\ length prices = length ts /\
    length optimized = length ts /\ length availability = length ts.
Proof.
  intros Hobs. rewrite (run_simulation_returns _ _ _ _ _ _ _ _ Hobs).
  eexists. eexists. exists (map (fun a => a * 100) (fractions ra)).
  split; [reflexivity|]. split.
  { cbn [df compare_results]. rewrite !dom_insert_L, dom_empty_L. set_solver. }
  split; [reflexivity|]. split; [reflexivity|]. split; [reflexivity|].
  split; [apply df_optimized|]. split.
  { cbn [df compare_results]. rewrite lookup_insert_ne by discriminate.
    rewrite lookup_insert_eq. now rewrite map_map. }
  destruct Hobs as [_ _ _ _ Hp Hr Hw].
  rewrite !length_map, length_decrease, length_increase, length_fractions.
  now repeat split.
Qed.

Lemma result_table_columns_witness :
  exists r,
    run_simulation scenario_table 0.7 0.5 0.02 = Ok r /\
    df r !! TIMESTAMP = Some scenario_timestamps.
Proof.
  destruct (result_table_columns scenario_table scenario_timestamps
              scenario_prices scenario_availability scenario_workload 0.7 0.5 0.02)
    as (r & _ & _ & Hr & _ & Hts & _).
  - constructor; reflexivity.
  - exists r. split; assumption.
Defined.

(** X6.  The engine looks up 'Timestamp' first: on a table without that
    column (one whose timestamps are the index, say) it raises KeyError
    'Timestamp', whatever the other columns hold. *)
Theorem engine_needs_timestamp_column (data : DataFrame) t efn efr :
  data !! TIMESTAMP = None ->
  run_simulation data t efn efr = Raise (KeyError TIMESTAMP).
Proof.
  intros H. unfold run_simulation, column. now rewrite H.
Qed.

Lemma engine_needs_timestamp_column_witness :
  run_simulation (delete TIMESTAMP scenario_table) 0.7 0.5 0.02
  = Raise (KeyError TIMESTAMP).
Proof.
  apply (engine_needs_timestamp_column (delete TIMESTAMP scenario_table)).
  reflexivity.
Defined.

Lemma no_text_ok (s : Series) : no_text s = Ok tt -> existsb is_text s = false.
Proof.
  unfold no_text. now destruct (existsb is_text s).
Qed.

(** X7.  The engine returns only on a table that has the four columns it
    reads, with no str in the availability column: a missing column never
    goes unnoticed into the results. *)
Theorem engine_returns_only_with_its_columns (data : DataFrame) t efn efr r :
  run_simulation data t efn efr = Ok r ->
  is_Some (data !! TIMESTAMP) /\
  is_Some (data !! PRICE) /\
  is_Some (data !! WORKLOAD) /\
  exists renewable_column,
    data !! RENEWABLE = Some renewable_column /\
    existsb is_text renewable_column = false.
Proof.
  unfold run_simulation, column.
  destruct (data !! TIMESTAMP) as [ts|]; [|discriminate].
  destruct (data !! PRICE) as [pc|]; [|discriminate].
  destruct (data !! RENEWABLE) as [rc|]; [|discriminate].
  cbn [rbind].
  destruct (no_text rc) as [[]|] eqn:Hrc; [|discriminate]. cbn [rbind].
  destruct (data !! WORKLOAD) as [wc|]; [|discriminate].
  intros _. repeat split; try (now eexists).
  exists rc. split; [reflexivity | now apply no_text_ok].
Qed.

Lemma engine_returns_only_with_its_columns_witness :
  is_Some (scenario_table !! TIMESTAMP).
Proof.
  destruct (run_simulation scenario_table 0.7 0.5 0.02) as [r|e] eqn:Hrun.
  - now destruct (engine_returns_only_with_its_columns scenario_table
                    0.7 0.5 0.02 r Hrun) as [H _].
  - vm_compute in Hrun. discriminate.
Defined.

(** ** simulator.py on columns of numbers *)

Lemma mapM_num (f : cell -> result cell) (g : Q -> Q) (l : list Q) :
  (forall x, f (Num x) = Ok (Num (g x))) ->
  mapM f (map Num l) = Ok (map Num (map g l)).
Proof.
  intros Hf. induction l as [|x l IH]; [reflexivity|].
  cbn [map mapM]. now rewrite Hf, IH.
Qed.

Lemma series_scalar_num (f : Q -> Q -> Q) (l : list Q) (k : Q) :
  series_scalar f (map Num l) k = Ok (map Num (map (fun x => f x k) l)).
Proof. unfold series_scalar. now apply mapM_num. Qed.

Lemma scalar_series_num (f : Q -> Q -> Q) (k : Q) (l : list Q) :
  scalar_series f k (map Num l) = Ok (map Num (map (f k) l)).
Proof. unfold scalar_series. now apply mapM_num. Qed.

Lemma series_series_num (f : Q -> Q -> Q) (a b : list Q) :
  series_series f (map Num a) (map Num b) = Ok (map Num (zip_with f a b)).
Proof.
  unfold series_series. revert b.
  induction a as [|x a IH]; intros [|y b]; try reflexivity.
  cbn [map zip_with mapM fst snd cell_op rbind]. now rewrite IH.
Qed.

Lemma series_ge_num (l : list Q) (k : Q) :
  series_ge (map Num l) k = Ok (map (Qle_bool k) l).
Proof.
  unfold series_ge. induction l as [|x l IH]; [reflexivity|].
  cbn [map mapM cell_ge rbind]. now rewrite IH.
Qed.

Lemma np_where_num (cond : list bool) (a b : list Q) :
  np_where cond (map Num a) (map Num b)
  = map Num (zip_with (fun (c : bool) (p : Q * Q) => if c then fst p else snd p)
                      cond (zip a b)).
Proof.
  unfold np_where. revert a b.
  induction cond as [|c cond IH]; intros [|x a] [|y b]; try reflexivity.
  cbn [map zip_with fst snd]. rewrite IH. now destruct c.
Qed.

Section stepping.

Context {A B : Type}.

Lemma bind_ok (m : Py A) (k : A -> Py B) (data data' : DataFrame) (a : A) :
  m data = (data', Ok a) -> bind m k data = k a data'.
Proof. intros H. unfold bind. now rewrite H. Qed.

Lemma bind_raise (m : Py A) (k : A -> Py B) (data data' : DataFrame) (e : exn) :
  m data = (data', Raise e) -> bind m k data = (data', Raise e).
Proof. intros H. unfold bind. now rewrite H. Qed.

Lemma lift_ok (r : result A) (a : A) (data : DataFrame) :
  r = Ok a -> lift r data = (data, Ok a).
Proof. now intros ->. Qed.

End stepping.

Lemma getitem_ok (c : string) (s : Series) (data : DataFrame) :
  data !! c = Some s -> getitem c data = (data, Ok s).
Proof. intros H. unfold getitem. now rewrite H. Qed.

Lemma getitem_missing (c : string) (data : DataFrame) :
  data !! c = None -> getitem c data = (data, Raise (KeyError c)).
Proof. intros H. unfold getitem. now rewrite H. Qed.

Ltac py_lookup :=
  repeat (rewrite lookup_insert_ne by discriminate);
  first [eassumption | apply lookup_insert_eq].

Ltac py_pure :=
  apply lift_ok;
  first [ apply series_scalar_num | apply scalar_series_num
        | apply series_series_num | apply series_ge_num | apply series_sum_num ].

Ltac py_step :=
  erewrite bind_ok by
    first [ apply getitem_ok; py_lookup | py_pure | reflexivity ].

Lemma emissions_of_num (e : string) (energy ra : list Q) (efn efr : Q)
    (data : DataFrame) :
  data !! e = Some (map Num energy) ->
  data !! RENEWABLE = Some (map Num ra) ->
  simulator.emissions_of e efn efr data
  = (data, Ok (map Num (weighted_emissions energy ra efn efr))).
Proof.
  intros He Hra. unfold simulator.emissions_of.
  do 11 py_step. now py_pure.
Qed.

Lemma column_sum_num (c : string) (l : list Q) (data : DataFrame) :
  data !! c = Some (map Num l) ->
  simulator.column_sum c data = (data, Ok (np_sum l)).
Proof.
  intros Hc. unfold simulator.column_sum. py_step. now py_pure.
Qed.

Lemma scaled_column_sum_num (c : string) (l : list Q) (k : Q) (data : DataFrame) :
  data !! c = Some (map Num l) ->
  simulator.scaled_column_sum c k data
  = (data, Ok (np_sum (map (fun x => x * k) l))).
Proof.
  intros Hc. unfold simulator.scaled_column_sum. do 2 py_step. now py_pure.
Qed.

Ltac sim_step :=
  erewrite bind_ok by
    first [ apply getitem_ok; py_lookup
          | apply emissions_of_num; py_lookup
          | apply column_sum_num; py_lookup
          | apply scaled_column_sum_num; py_lookup
          | py_pure
          | reflexivity ].

(** What [simulator.run_simulation] does on a workload column and an
    availability column of numbers. *)
Lemma simulator_run_numeric (data : DataFrame) (w ra : list Q) (t p efn efr : Q) :
  data !! WORKLOAD = Some (map Num w) ->
  data !! RENEWABLE = Some (map Num ra) ->
  simulator.run_simulation t p efn efr data
  = (simulator_table data w ra t efn efr, Ok (simulator_totals w ra t p efn efr)).
Proof.
  intros Hw Hra. unfold simulator.run_simulation.
  do 7 sim_step. rewrite np_where_num. fold (reduced_energy w ra t).
  do 15 sim_step. reflexivity.
Qed.

Lemma reduced_energy_slot (w ra : list Q) (t : Q) (i : nat) (x a o : Q) :
  w !! i = Some x -> ra !! i = Some a -> reduced_energy w ra t !! i = Some o ->
  o = if Qle_bool (t * 100) a then x else x * 0.9.
Proof.
  unfold reduced_energy. revert w ra.
  induction i as [|i IH]; intros [|x' w] [|a' ra]; try discriminate;
    cbn [map zip_with lookup list_lookup].
  - intros [= ->] [= ->] [= <-]. reflexivity.
  - apply IH.
Qed.

Lemma length_reduced_energy (w ra : list Q) (t : Q) :
  length ra = length w -> length (reduced_energy w ra t) = length w.
Proof.
  intros Hlen. unfold reduced_energy.
  rewrite !length_zip_with, !length_map. lia.
Qed.

Lemma reduced_energy_sum (w ra : list Q) (t : Q) :
  length ra = length w ->
  np_sum (reduced_energy w ra t)
  == np_sum w - np_sum (select (map negb (map (Qle_bool (t * 100)) ra)) w) * 0.1.
Proof.
  unfold reduced_energy. revert ra.
  induction w as [|x w IH]; intros [|a ra] Hlen; try discriminate.
  - cbn. reflexivity.
  - injection Hlen as Hlen. specialize (IH ra Hlen).
    cbn [map zip_with select fst snd].
    destruct (Qle_bool (t * 100) a); cbn [negb]; rewrite !np_sum_cons; lra.
Qed.

Lemma np_sum_nonneg (l : list Q) : Forall (fun x => 0 <= x) l -> 0 <= np_sum l.
Proof.
  induction 1 as [|x l Hx _ IH]; [cbn; lra|].
  rewrite np_sum_cons. lra.
Qed.

Lemma select_nonneg (mask : list bool) (l : list Q) :
  Forall (fun x => 0 <= x) l -> Forall (fun x => 0 <= x) (select mask l).
Proof.
  intros Hl. revert mask.
  induction Hl as [|x l Hx _ IH]; intros [|m mask]; try constructor.
  cbn [select]. destruct m; [constructor; [exact Hx | apply IH] | apply IH].
Qed.

(** X8.  [simulator.run_simulation] on numeric columns shifts nothing between
    slots: every slot of the 'Optimized Energy' column it writes holds the
    slot's workload or (in exact arithmetic) 0.9 times it, so on non-negative
    workloads the optimized energy it returns never exceeds the baseline
    energy and the energy savings are never negative. *)
Theorem simulator_never_increases_energy
    (data : DataFrame) (w ra : list Q) (t p efn efr : Q) :
  data !! WORKLOAD = Some (map Num w) ->
  data !! RENEWABLE = Some (map Num ra) ->
  length ra = length w ->
  Forall (fun x => 0 <= x) w ->
  exists r optimized,
    snd (simulator.run_simulation t p efn efr data) = Ok r /\
    fst (simulator.run_simulation t p efn efr data) !! OPTIMIZED_ENERGY
      = Some (map Num optimized) /\
    length optimized = length w /\
    (forall (i : nat) (x o : Q),
       w !! i = Some x -> optimized !! i = Some o -> o = x \/ o = x * 0.9) /\
    simulator.optimized_energy r <= simulator.baseline_energy r /\
    0 <= simulator.energy_savings r.
Proof.
  intros Hw Hra Hlen Hpos.
  rewrite (simulator_run_numeric data w ra t p efn efr Hw Hra).
  exists (simulator_totals w ra t p efn efr), (reduced_energy w ra t).
  split; [reflexivity|]. split.
  { cbn [fst]. unfold simulator_table.
    rewrite lookup_insert_ne by discriminate. apply lookup_insert_eq. }
  split; [now apply length_reduced_energy|].
  split.
  { intros i x o Hx Ho.
    destruct (lookup_lt_is_Some_2 ra i) as [a Ha].
    { apply lookup_lt_Some in Hx. lia. }
    rewrite (reduced_energy_slot w ra t i x a o Hx Ha Ho).
    destruct (Qle_bool (t * 100) a); [now left | now right]. }
  cbn [simulator.optimized_energy simulator.baseline_energy
       simulator.energy_savings simulator_totals].
  pose proof (reduced_energy_sum w ra t Hlen) as Hs.
  pose proof (np_sum_nonneg _ (select_nonneg
                (map negb (map (Qle_bool (t * 100)) ra)) w Hpos)).
  split; lra.
Qed.

Lemma simulator_never_increases_energy_witness :
  exists r, snd (simulator.run_simulation 0.7 0.1 0.5 0.02 scenario_table) = Ok r /\
            0 <= simulator.energy_savings r.
Proof.
  destruct (simulator_never_increases_energy scenario_table
              scenario_workload scenario_availability 0.7 0.1 0.5 0.02)
    as (r & _ & Hr & _ & _ & _ & _ & Hs).
  - reflexivity.
  - reflexivity.
  - reflexivity.
  - unfold scenario_workload. repeat constructor; cbn; lra.
  - exists r. split; assumption.
Defined.

(** X9.  Columns left by an earlier run do not reach the next one: running
    [simulator.run_simulation] (with any parameters) on the table an earlier
    run left gives the table and the results of running it on the original
    table; in particular a second run with the same parameters changes
    nothing. *)
Theorem simulator_rerun (data : DataFrame) (w ra : list Q)
    (t p efn efr t' p' efn' efr' : Q) :
  data !! WORKLOAD = Some (map Num w) ->
  data !! RENEWABLE = Some (map Num ra) ->
  simulator.run_simulation t' p' efn' efr'
    (fst (simulator.run_simulation t p efn efr data))
  = simulator.run_simulation t' p' efn' efr' data.
Proof.
  intros Hw Hra.
  rewrite (simulator_run_numeric data w ra t p efn efr Hw Hra). cbn [fst].
  rewrite (simulator_run_numeric data w ra t' p' efn' efr' Hw Hra).
  rewrite (simulator_run_numeric (simulator_table data w ra t efn efr) w ra
             t' p' efn' efr').
  - f_equal. unfold simulator_table. apply map_eq. intros c.
    rewrite !lookup_insert. repeat case_decide; reflexivity.
  - unfold simulator_table. now rewrite !lookup_insert_ne by discriminate.
  - unfold simulator_table. now rewrite !lookup_insert_ne by discriminate.
Qed.

Lemma simulator_rerun_witness :
  simulator.run_simulation 0.7 0.1 0.5 0.02
    (fst (simulator.run_simulation 0.7 0.1 0.5 0.02 scenario_table))
  = simulator.run_simulation 0.7 0.1 0.5 0.02 scenario_table.
Proof.
  apply (simulator_rerun scenario_table scenario_workload scenario_availability);
    reflexivity.
Defined.

(** X10.  A missing column stops [simulator.run_simulation] before its first
    assignment: without the workload column, or with a numeric workload
    column and no availability column, it raises the KeyError of that column
    and the caller's table is as it was. *)
Theorem simulator_missing_column (data : DataFrame) (t p efn efr : Q) :
  data !! WORKLOAD = None \/
  ((exists w, data !! WORKLOAD = Some (map Num w)) /\ data !! RENEWABLE = None) ->
  exists c,
    data !! c = None /\
    simulator.run_simulation t p efn efr data = (data, Raise (KeyError c)).
Proof.
  intros [Hw | [[w Hw] Hra]].
  - exists WORKLOAD. split; [exact Hw|].
    unfold simulator.run_simulation, simulator.emissions_of.
    erewrite bind_raise; [reflexivity|].
    erewrite bind_raise; [reflexivity|]. now apply getitem_missing.
  - exists RENEWABLE. split; [exact Hra|].
    unfold simulator.run_simulation, simulator.emissions_of.
    erewrite bind_raise; [reflexivity|].
    do 2 py_step.
    erewrite bind_raise; [reflexivity|]. now apply getitem_missing.
Qed.

Lemma simulator_missing_column_witness :
  exists c,
    no_workload_table !! c = None /\
    simulator.run_simulation 0.7 0.1 0.5 0.02 no_workload_table
    = (no_workload_table, Raise (KeyError c)).
Proof.
  apply (simulator_missing_column no_workload_table). left. reflexivity.
Defined.


Lemma weighted_emissions_equiv (w ra : list Q) (efn efr : Q) :
  Forall2 Qeq (weighted_emissions w ra efn efr) (emissions w (fractions ra) efn efr).
Proof.
  unfold weighted_emissions. revert ra.
  induction w as [|x w IH]; intros [|a ra]; try (now constructor).
  change (fractions (a :: ra)) with (a / 100 :: fractions ra).
  rewrite emissions_cons. cbn [map zip_with].
  constructor; [ring | apply IH].
Qed.

(** X11.  The three modules agree on the baseline of a table of
    observations: the estimator's total_energy, the baseline_energy of
    simulator.py and the engine's total_baseline_energy are the same sum, and
    simulator.py and the engine report the same renewable-weighted baseline
    emissions. *)
Theorem modules_agree_on_baseline
    parse (data : DataFrame) ts prices ra w t p efn efr :
  observations data ts prices ra w ->
  exists m rs re,
    snd (calculate_baseline parse p efn data) = Ok m /\
    snd (simulator.run_simulation t p efn efr data) = Ok rs /\
    run_simulation data t efn efr = Ok re /\
    total_energy m = simulator.baseline_energy rs /\
    simulator.baseline_energy rs = total_baseline_energy re /\
    simulator.baseline_emissions rs == total_baseline_emissions re.
Proof.
  intros Hobs.
  destruct (calculate_baseline_present parse p efn data _ (obs_workload _ _ _ _ _ Hobs))
    as (q & Hq & ->).
  rewrite to_numeric_num, series_sum_num in Hq. injection Hq as <-.
  rewrite (simulator_run_numeric data w ra t p efn efr
             (obs_workload _ _ _ _ _ Hobs) (obs_renewable _ _ _ _ _ Hobs)).
  rewrite (run_simulation_returns _ _ _ _ _ _ _ _ Hobs).
  eexists. eexists. eexists.
  split; [reflexivity|]. split; [reflexivity|]. split; [reflexivity|].
  split; [reflexivity|]. split; [reflexivity|].
  cbn [simulator.baseline_emissions simulator_totals
       total_baseline_emissions compare_results].
  apply np_sum_equiv, weighted_emissions_equiv.
Qed.

Lemma modules_agree_on_baseline_witness :
  exists m rs re,
    snd (calculate_baseline (fun _ => None) 0.1 0.5 scenario_table) = Ok m /\
    snd (simulator.run_simulation 0.7 0.1 0.5 0.02 scenario_table) = Ok rs /\
    run_simulation scenario_table 0.7 0.5 0.02 = Ok re /\
    simulator.baseline_emissions rs == total_baseline_emissions re.
Proof.
  destruct (modules_agree_on_baseline (fun _ => None) scenario_table
              scenario_timestamps scenario_prices scenario_availability
              scenario_workload 0.7 0.1 0.5 0.02)
    as (m & rs & re & Hm & Hrs & Hre & _ & _ & He).
  - constructor; reflexivity.
  - exists m, rs, re. repeat split; assumption.
Defined.

(** ** optena1.py *)

(** X12.  On a numeric workload column the estimator of optena1.py returns
    the metrics of [baseline_calculator.calculate_baseline] and, like it
    there, leaves the table as it was. *)
Theorem optena1_baseline_agrees parse (data : DataFrame) (w : list Q) p ef :
  data !! WORKLOAD = Some (map Num w) ->
  optena1.calculate_baseline p ef data = calculate_baseline parse p ef data /\
  fst (optena1.calculate_baseline p ef data) = data.
Proof.
  intros Hw.
  destruct (calculate_baseline_present parse p ef data _ Hw) as (q & Hq & ->).
  rewrite to_numeric_num in *. rewrite series_sum_num in Hq. injection Hq as <-.
  rewrite (insert_id data WORKLOAD _ Hw).
  unfold optena1.calculate_baseline. do 2 py_step. split; reflexivity.
Qed.

Lemma optena1_baseline_agrees_witness :
  optena1.calculate_baseline 0.1 0.5 scenario_table
  = calculate_baseline (fun _ => None) 0.1 0.5 scenario_table.
Proof.
  apply (optena1_baseline_agrees (fun _ => None) scenario_table scenario_workload).
  reflexivity.
Defined.

Lemma series_sum_from_text (s : Series) (acc : Q) :
  existsb is_text s = true -> series_sum_from acc s = Raise TypeError.
Proof.
  revert acc. induction s as [|c s IH]; intros acc; [discriminate|].
  destruct c; cbn; intros H; try apply IH; auto.
Qed.

(** X13.  The two estimators part on text: where a cell of the workload
    column is a str, the estimator of optena1.py, which does not coerce,
    raises TypeError and leaves the table alone, while
    [baseline_calculator.calculate_baseline] returns metrics. *)
Theorem optena1_baseline_rejects_text parse (data : DataFrame) (col : Series) p ef :
  data !! WORKLOAD = Some col ->
  existsb is_text col = true ->
  optena1.calculate_baseline p ef data = (data, Raise TypeError) /\
  exists m, snd (calculate_baseline parse p ef data) = Ok m.
Proof.
  intros Hcol Htext. split.
  - unfold optena1.calculate_baseline. py_step.
    erewrite bind_raise; [reflexivity|].
    unfold lift, series_sum. now rewrite series_sum_from_text.
  - destruct (calculate_baseline_present parse p ef data col Hcol) as (q & _ & ->).
    now eexists.
Qed.

Lemma optena1_baseline_rejects_text_witness :
  optena1.calculate_baseline 0.1 0.5 text_table = (text_table, Raise TypeError).
Proof.
  apply (optena1_baseline_rejects_text (fun _ => None) text_table
           [Num 10; Text "n/a"; Num 10]); reflexivity.
Defined.

(** X14.  The [run_simulation] of optena1.py (and of originals/simulator_.py)
    is that of simulator.py with three entries fewer: on numeric columns it
    leaves the same table and its six totals are the corresponding six of
    simulator.py's nine. *)
Theorem optena1_simulation_agrees (data : DataFrame) (w ra : list Q) t p efn efr :
  data !! WORKLOAD = Some (map Num w) ->
  data !! RENEWABLE = Some (map Num ra) ->
  exists r6 r9,
    snd (optena1.run_simulation t p efn efr data) = Ok r6 /\
    snd (simulator.run_simulation t p efn efr data) = Ok r9 /\
    fst (optena1.run_simulation t p efn efr data)
      = fst (simulator.run_simulation t p efn efr data) /\
    optena1.optimized_energy r6 = simulator.optimized_energy r9 /\
    optena1.optimized_cost r6 = simulator.optimized_cost r9 /\
    optena1.optimized_emissions r6 = simulator.optimized_emissions r9 /\
    optena1.energy_savings r6 = simulator.energy_savings r9 /\
    optena1.cost_savings r6 = simulator.cost_savings r9 /\
    optena1.emissions_savings r6 = simulator.emissions_savings r9.
Proof.
  intros Hw Hra.
  rewrite (simulator_run_numeric data w ra t p efn efr Hw Hra).
  unfold optena1.run_simulation.
  do 7 sim_step. rewrite np_where_num. fold (reduced_energy w ra t).
  do 12 sim_step.
  eexists. eexists. split; [reflexivity|]. split; [reflexivity|].
  repeat split.
Qed.

Lemma optena1_simulation_agrees_witness :
  exists r6 r9,
    snd (optena1.run_simulation 0.7 0.1 0.5 0.02 scenario_table) = Ok r6 /\
    snd (simulator.run_simulation 0.7 0.1 0.5 0.02 scenario_table) = Ok r9 /\
    optena1.energy_savings r6 = simulator.energy_savings r9.
Proof.
  destruct (optena1_simulation_agrees scenario_table scenario_workload
              scenario_availability 0.7 0.1 0.5 0.02)
    as (r6 & r9 & H6 & H9 & _ & _ & _ & _ & He & _).
  - reflexivity.
  - reflexivity.
  - exists r6, r9. repeat split; assumption.
Defined.

(** ** originals/app5.py *)

(** X15.  The load-factor slider of app5.py changes no metric: the adjusted
    column it fills is read by neither [calculate_baseline] nor
    [run_simulation], so for every factor the session returns the baseline
    metrics and the simulation results of the unadjusted workload. *)
Theorem load_factor_changes_no_metric
    parse (data : DataFrame) (w ra : list Q) t p efn efr :
  data !! WORKLOAD = Some (map Num w) ->
  data !! RENEWABLE = Some (map Num ra) ->
  exists m r,
    snd (calculate_baseline parse p efn data) = Ok m /\
    snd (simulator.run_simulation t p efn efr data) = Ok r /\
    forall factor,
      snd (app5.session parse factor t p efn efr data) = Ok (m, r) /\
      fst (app5.session parse factor t p efn efr data) !! app5.ADJUSTED_WORKLOAD
        = Some (map Num (map (fun x => x * factor) w)).
Proof.
  intros Hw Hra.
  destruct (calculate_baseline_present parse p efn data _ Hw) as (q & Hq & ->).
  rewrite to_numeric_num, series_sum_num in Hq. injection Hq as <-.
  rewrite (simulator_run_numeric data w ra t p efn efr Hw Hra).
  eexists. eexists. split; [reflexivity|]. split; [reflexivity|].
  intros factor. unfold app5.session.
  do 3 py_step.
  set (data1 := <[app5.ADJUSTED_WORKLOAD := _]> data).
  assert (Hw1 : data1 !! WORKLOAD = Some (map Num w))
    by (subst data1; now rewrite lookup_insert_ne by discriminate).
  assert (Hra1 : data1 !! RENEWABLE = Some (map Num ra))
    by (subst data1; now rewrite lookup_insert_ne by discriminate).
  destruct (calculate_baseline_present parse p efn data1 _ Hw1) as (q & Hq & Hrun).
  rewrite to_numeric_num in *. rewrite series_sum_num in Hq. injection Hq as <-.
  rewrite (insert_id data1 WORKLOAD _ Hw1) in Hrun.
  erewrite bind_ok by exact Hrun.
  erewrite bind_ok by (apply simulator_run_numeric; eassumption).
  split; [reflexivity|].
  cbn [fst ret]. unfold simulator_table.
  rewrite !lookup_insert_ne by discriminate.
  subst data1. apply lookup_insert_eq.
Qed.

Lemma load_factor_changes_no_metric_witness :
  exists m r,
    snd (calculate_baseline (fun _ => None) 0.1 0.5 scenario_table) = Ok m /\
    snd (app5.session (fun _ => None) 2 0.7 0.1 0.5 0.02 scenario_table) = Ok (m, r).
Proof.
  destruct (load_factor_changes_no_metric (fun _ => None) scenario_table
              scenario_workload scenario_availability 0.7 0.1 0.5 0.02)
    as (m & r & Hm & _ & Hs).
  - reflexivity.
  - reflexivity.
  - exists m, r. split; [exact Hm | apply Hs].
Defined.

(** ** originals/simulator.py *)

Lemma apply_rows_num (t : Q) (w f : list Q) :
  originals_simulator.apply_rows t (map Num w) (map Num f)
  = Ok (map Num (zip_with (fun x f => if Qle_bool t f then x * f else x) w f)).
Proof.
  unfold originals_simulator.apply_rows. revert f.
  induction w as [|x w IH]; intros [|a f]; try reflexivity.
  cbn [map zip_with mapM fst snd]. rewrite IH.
  unfold originals_simulator.optimized_row. cbn [cell_ge rbind].
  now destruct (Qle_bool t a).
Qed.

Lemma np_sum_shift (l : list Q) (c : Q) :
  np_sum (map (fun x => x + c) l)
  == np_sum l + inject_Z (Z.of_nat (length l)) * c.
Proof.
  induction l as [|x l IH]; [cbn; reflexivity|].
  cbn [map length]. rewrite !np_sum_cons, IH, Nat2Z.inj_succ.
  unfold Z.succ. rewrite inject_Z_plus. ring.
Qed.

Lemma scaled_energy_le (w ra : list Q) (t : Q) :
  length ra = length w ->
  Forall (fun x => 0 <= x) w -> Forall (fun a => a <= 100) ra ->
  np_sum (scaled_energy w ra t) <= np_sum w.
Proof.
  unfold scaled_energy. intros Hlen Hw. revert ra Hlen.
  induction Hw as [|x w Hx _ IH]; intros [|a ra] Hlen Hra;
    [cbn; lra | discriminate | discriminate |].
  inversion Hra as [|? ? Ha Hra']; subst. injection Hlen as Hlen.
  cbn [map zip_with]. rewrite !np_sum_cons.
  specialize (IH ra Hlen Hra').
  assert (Hf : a / 100 <= 1) by (apply Qle_shift_div_r; [reflexivity | lra]).
  assert (x * (a / 100) <= x).
  { assert (0 <= x * (1 - a / 100)) by (apply Qmult_le_0_compat; lra). lra. }
  destruct (Qle_bool t (a / 100)); lra.
Qed.

(** What [originals_simulator.run_simulation] does on numeric columns. *)
Lemma originals_run_numeric (data : DataFrame) (w ra : list Q) (t p efn efr : Q) :
  data !! WORKLOAD = Some (map Num w) ->
  data !! RENEWABLE = Some (map Num ra) ->
  originals_simulator.run_simulation t p efn efr data
  = (<[originals_simulator.OPTIMIZED_ENERGY_KWH := map Num (scaled_energy w ra t)]>
     (<[originals_simulator.RENEWABLE_FRACTION := map Num (map (fun a => a / 100) ra)]>
        data),
     Ok {| simulator.baseline_energy := np_sum w;
           simulator.optimized_energy := np_sum (scaled_energy w ra t);
           simulator.energy_savings := np_sum w - np_sum (scaled_energy w ra t);
           simulator.baseline_cost := np_sum w * p;
           simulator.optimized_cost := np_sum (scaled_energy w ra t) * p;
           simulator.cost_savings :=
             np_sum w * p - np_sum (scaled_energy w ra t) * p;
           simulator.baseline_emissions := np_sum w * efn;
           simulator.optimized_emissions :=
             np_sum (map (fun x => x + (np_sum w - np_sum (scaled_energy w ra t)) * efn)
                       (map (fun x => x * efr) (scaled_energy w ra t)));
           simulator.emissions_savings :=
             np_sum w * efn
             - np_sum (map (fun x => x + (np_sum w - np_sum (scaled_energy w ra t)) * efn)
                         (map (fun x => x * efr) (scaled_energy w ra t))) |}).
Proof.
  intros Hw Hra. unfold originals_simulator.run_simulation.
  py_step. rewrite bool_decide_eq_true_2 by (rewrite Hra; now eexists).
  cbn [negb]. do 8 py_step.
  erewrite bind_ok by (apply lift_ok, apply_rows_num).
  fold (scaled_energy w ra t).
  do 7 py_step. reflexivity.
Qed.

(** X16.  The earliest variant checks for the availability column before it
    uses it: on a table without 'Renewable Availability (%)' it raises the
    ValueError of its check, with nothing written to the table. *)
Theorem originals_missing_availability (data : DataFrame) (t p efn efr : Q) :
  data !! RENEWABLE = None ->
  originals_simulator.run_simulation t p efn efr data
  = (data, Raise (ValueError originals_simulator.MISSING_COLUMN_MESSAGE)).
Proof.
  intros Hra. unfold originals_simulator.run_simulation.
  py_step. rewrite bool_decide_eq_false_2 by (rewrite Hra; now intros [? ?]).
  reflexivity.
Qed.

Lemma originals_missing_availability_witness :
  originals_simulator.run_simulation 0.7 0.1 0.5 0.02 (delete RENEWABLE scenario_table)
  = (delete RENEWABLE scenario_table,
     Raise (ValueError originals_simulator.MISSING_COLUMN_MESSAGE)).
Proof.
  apply (originals_missing_availability (delete RENEWABLE scenario_table)).
  reflexivity.
Defined.

(** X17.  The earliest variant on numeric columns: it returns, having written
    into the caller's table a column of availability fractions and a column
    of optimized energy, one entry per row; a slot whose written fraction is
    at or above the threshold holds its workload times that fraction, a slot
    below holds its workload; and the optimized emissions it returns add the
    non-renewable term (baseline energy - optimized energy) * factor once per
    row: in exact arithmetic they are optimized energy * renewable factor plus
    the number of rows times that term. *)
Theorem originals_simulation_numeric
    (data : DataFrame) (w ra : list Q) (t p efn efr : Q) :
  data !! WORKLOAD = Some (map Num w) ->
  data !! RENEWABLE = Some (map Num ra) ->
  length ra = length w ->
  exists r optimized fraction,
    snd (originals_simulator.run_simulation t p efn efr data) = Ok r /\
    fst (originals_simulator.run_simulation t p efn efr data)
      !! originals_simulator.OPTIMIZED_ENERGY_KWH = Some (map Num optimized) /\
    fst (originals_simulator.run_simulation t p efn efr data)
      !! originals_simulator.RENEWABLE_FRACTION = Some (map Num fraction) /\
    length optimized = length w /\ length fraction = length w /\
    (forall (i : nat) (x f o : Q),
       w !! i = Some x -> fraction !! i = Some f -> optimized !! i = Some o ->
       o = if Qle_bool t f then x * f else x) /\
    simulator.baseline_energy r = np_sum w /\
    simulator.optimized_energy r = np_sum optimized /\
    simulator.optimized_emissions r
    == simulator.optimized_energy r * efr
       + inject_Z (Z.of_nat (length w))
         * ((simulator.baseline_energy r - simulator.optimized_energy r) * efn).
Proof.
  intros Hw Hra Hlen.
  rewrite (originals_run_numeric data w ra t p efn efr Hw Hra).
  eexists. exists (scaled_energy w ra t), (map (fun a => a / 100) ra).
  split; [reflexivity|]. split; [apply lookup_insert_eq|].
  split.
  { cbn [fst]. rewrite lookup_insert_ne by discriminate. apply lookup_insert_eq. }
  assert (Hl : length (scaled_energy w ra t) = length w).
  { unfold scaled_energy. rewrite length_zip_with, length_map. lia. }
  split; [exact Hl|]. split; [rewrite length_map; exact Hlen|].
  split.
  { intros i x f o Hx Hf Ho. unfold scaled_energy in Ho.
    rewrite lookup_zip_with, Hx, Hf in Ho. cbn in Ho. now injection Ho as <-. }
  split; [reflexivity|]. split; [reflexivity|].
  cbn [snd simulator.optimized_emissions simulator.optimized_energy
       simulator.baseline_energy].
  rewrite np_sum_shift, np_sum_scale, length_map, Hl. reflexivity.
Qed.

Lemma originals_simulation_numeric_witness :
  exists r,
    snd (originals_simulator.run_simulation 0.7 0.1 0.5 0.02 scenario_table) = Ok r /\
    simulator.baseline_energy r = np_sum scenario_workload.
Proof.
  destruct (originals_simulation_numeric scenario_table scenario_workload
              scenario_availability 0.7 0.1 0.5 0.02)
    as (r & o & f & Hr & _ & _ & _ & _ & _ & Hb & _).
  - reflexivity.
  - reflexivity.
  - reflexivity.
  - exists r. split; assumption.
Defined.

(** X18.  In the earliest variant the optimized energy never exceeds the
    baseline when the workloads are non-negative and the availabilities at
    most 100%: the energy savings it returns are not negative. *)
Theorem originals_savings_nonneg
    (data : DataFrame) (w ra : list Q) (t p efn efr : Q) :
  data !! WORKLOAD = Some (map Num w) ->
  data !! RENEWABLE = Some (map Num ra) ->
  length ra = length w ->
  Forall (fun x => 0 <= x) w ->
  Forall (fun a => a <= 100) ra ->
  exists r,
    snd (originals_simulator.run_simulation t p efn efr data) = Ok r /\
    simulator.optimized_energy r <= simulator.baseline_energy r /\
    0 <= simulator.energy_savings r.
Proof.
  intros Hw Hra Hlen Hpos Hle.
  rewrite (originals_run_numeric data w ra t p efn efr Hw Hra).
  eexists. split; [reflexivity|].
  cbn [simulator.optimized_energy simulator.baseline_energy simulator.energy_savings].
  pose proof (scaled_energy_le w ra t Hlen Hpos Hle). split; lra.
Qed.

Lemma originals_savings_nonneg_witness :
  exists r,
    snd (originals_simulator.run_simulation 0.7 0.1 0.5 0.02 scenario_table) = Ok r /\
    0 <= simulator.energy_savings r.
Proof.
  destruct (originals_savings_nonneg scenario_table scenario_workload
              scenario_availability 0.7 0.1 0.5 0.02) as (r & Hr & _ & Hs).
  - reflexivity.
  - reflexivity.
  - reflexivity.
  - unfold scenario_workload. repeat constructor; cbn; lra.
  - unfold scenario_availability. repeat constructor; cbn; lra.
  - exists r. split; assumption.
Defined.

(** ** filter_requirements.py *)







(** ** More on the baseline estimator *)

Lemma coerce_idempotent parse (c : cell) : coerce parse (coerce parse c) = coerce parse c.
Proof.
  destruct c as [q|s|]; cbn; try reflexivity. now destruct (parse s).
Qed.

Lemma to_numeric_idempotent parse (col : Series) :
  to_numeric parse (to_numeric parse col) = to_numeric parse col.
Proof.
  unfold to_numeric. rewrite map_map. apply map_ext. apply coerce_idempotent.
Qed.

Lemma series_sum_from_readable parse (col : Series) (acc : Q) :
  series_sum_from acc (to_numeric parse col)
  = Ok (fold_left Qplus (readable parse col) acc).
Proof.
  unfold to_numeric, readable. revert acc.
  induction col as [|c col IH]; intros acc; [reflexivity|].
  destruct (coerce parse c) as [q|s|] eqn:Hc.
  - cbn. rewrite Hc. cbn. apply IH.
  - destruct c as [q'|s'|]; cbn in Hc; try discriminate.
    destruct (parse s'); discriminate.
  - cbn. rewrite Hc. cbn. apply IH.
Qed.

(** X20.  Wherever the workload column is present the estimator returns: a
    cell pandas cannot read as a number raises nothing and adds nothing, the
    total energy being the sum of the cells it can read; cost and emissions
    are that total times the price and the factor. *)
Theorem baseline_counts_readable_cells parse (data : DataFrame) (col : Series) p ef :
  data !! WORKLOAD = Some col ->
  snd (calculate_baseline parse p ef data)
  = Ok {| total_energy := np_sum (readable parse col);
          total_cost := np_sum (readable parse col) * p;
          total_emissions := np_sum (readable parse col) * ef |}.
Proof.
  intros Hcol.
  destruct (calculate_baseline_present parse p ef data col Hcol) as (q & Hq & ->).
  unfold series_sum in Hq. rewrite series_sum_from_readable in Hq.
  injection Hq as <-. reflexivity.
Qed.

Lemma baseline_counts_readable_cells_witness :
  snd (calculate_baseline (fun _ => None) 0.1 0.5 text_table)
  = Ok {| total_energy := np_sum [10; 10];
          total_cost := np_sum [10; 10] * 0.1;
          total_emissions := np_sum [10; 10] * 0.5 |}.
Proof.
  apply (baseline_counts_readable_cells (fun _ => None) text_table
           [Num 10; Text "n/a"; Num 10]).
  reflexivity.
Defined.

(** X21.  Calling the estimator again on the table it left, with any price
    and factor, leaves the same table and returns what it returns on the
    original table: the coercion it writes back is its own fixed point. *)
Theorem baseline_second_call parse (data : DataFrame) p ef p' ef' :
  calculate_baseline parse p' ef' (fst (calculate_baseline parse p ef data))
  = calculate_baseline parse p' ef' data.
Proof.
  destruct (data !! WORKLOAD) as [col|] eqn:Hcol.
  - destruct (calculate_baseline_present parse p ef data col Hcol) as (q & _ & ->).
    cbn [fst].
    destruct (calculate_baseline_present parse p' ef' data col Hcol)
      as (q' & Hq' & ->).
    destruct (calculate_baseline_present parse p' ef'
                (<[WORKLOAD := to_numeric parse col]> data) (to_numeric parse col))
      as (q'' & Hq'' & ->); [apply lookup_insert_eq|].
    rewrite to_numeric_idempotent in *. rewrite Hq' in Hq''. injection Hq'' as <-.
    now rewrite insert_insert_eq.
  - rewrite (calculate_baseline_absent parse p ef data Hcol). reflexivity.
Qed.


(** * The engine on columns that may hold NaN *)

(** ** Loops *)

(** A property kept by every iteration that does not raise holds at the end
    of the loop, which then does not raise either. *)
Lemma for_range_invariant {S} (P : S -> Prop)
    (body : nat -> S -> result (S * bool)) (range : list nat) (s : S) :
  P s ->
  (forall i s, In i range -> P s -> exists s' b, body i s = Ok (s', b) /\ P s') ->
  exists s', for_range body range s = Ok s' /\ P s'.
Proof.
  revert s. induction range as [|i range IH]; intros s Hs Hbody.
  - now exists s.
  - destruct (Hbody i s (or_introl eq_refl) Hs) as (s' & b & Hrun & Hs').
    cbn [for_range]. rewrite Hrun. destruct b.
    + now exists s'.
    + apply IH; [exact Hs'|]. intros j s0 Hj. apply Hbody. now right.
Qed.

Lemma index_lt {A} (l : list A) (i : nat) :
  (i < length l)%nat -> exists x, index l i = Ok x /\ l !! i = Some x.
Proof.
  intros Hi. destruct (lookup_lt_is_Some_2 l i Hi) as [x Hx].
  exists x. unfold index. now rewrite Hx.
Qed.

(** ** The finite case *)

Lemma nan_np_sum_from (l : list Q) (a : Q) :
  fold_left (with_nan.arith Qplus) (map Some l) (Some a)
  = Some (fold_left Qplus l a).
Proof.
  revert a. induction l as [|x l IH]; intros a; [reflexivity | apply IH].
Qed.

Lemma nan_np_sum (l : list Q) : with_nan.np_sum (map Some l) = Some (np_sum l).
Proof. apply nan_np_sum_from. Qed.

Lemma nan_zip_with (f : Q -> Q -> Q) (a b : list Q) :
  zip_with (with_nan.arith f) (map Some a) (map Some b) = map Some (zip_with f a b).
Proof.
  revert b. induction a as [|x a IH]; intros [|y b]; try reflexivity.
  cbn [map zip_with]. now rewrite IH.
Qed.

Lemma select_map {A B} (f : A -> B) (mask : list bool) (l : list A) :
  select mask (map f l) = map f (select mask l).
Proof.
  revert l. induction mask as [|m mask IH]; intros [|x l]; try reflexivity.
  cbn [map select]. rewrite IH. now destruct m.
Qed.

Lemma nan_optimal_hours (av : list Q) (t : Q) :
  with_nan.optimal_hours (map Some av) t = optimal_hours av t.
Proof.
  unfold with_nan.optimal_hours, optimal_hours. now rewrite map_map.
Qed.

Lemma nan_total_energy_to_shift (w av : list Q) (optimal : list bool) (t : Q) :
  with_nan.total_energy_to_shift (map Some w) (map Some av) optimal t
  = Some (total_energy_to_shift w av optimal t).
Proof.
  unfold with_nan.total_energy_to_shift, total_energy_to_shift.
  rewrite !select_map, map_map.
  change (map (fun x => with_nan.arith Qminus (Some t) (Some x))
              (select (map negb optimal) av))
    with (map (fun x => Some (t - x)) (select (map negb optimal) av)).
  rewrite <- (map_map (fun x => t - x) Some).
  now rewrite nan_zip_with, nan_np_sum.
Qed.

Lemma nan_py_min (a b : Q) : with_nan.py_min (Some a) (Some b) = Some (py_min a b).
Proof.
  unfold with_nan.py_min, py_min. cbn. now destruct (Qle_bool a b).
Qed.

Lemma index_map {A B} (f : A -> B) (l : list A) (i : nat) :
  index (map f l) i = match index l i with Ok x => Ok (f x) | Raise e => Raise e end.
Proof.
  unfold index. rewrite list_lookup_fmap. now destruct (l !! i).
Qed.

Lemma nan_increase_body (optimal : list bool) (w : list Q) (i : nat) (st : schedule) :
  with_nan.increase_body optimal (map Some w) i (embed_schedule st)
  = match increase_body optimal w i st with
    | Ok (st', b) => Ok (embed_schedule st', b)
    | Raise e => Raise e
    end.
Proof.
  unfold with_nan.increase_body, increase_body.
  destruct (index optimal i) as [o|e]; [|reflexivity]. cbn [rbind].
  destruct o; [|reflexivity].
  rewrite index_map. destruct (index w i) as [x|e]; [|reflexivity]. cbn [rbind].
  cbn [embed_schedule with_nan.optimized_workload_energy with_nan.energy_to_shift].
  rewrite index_map.
  destruct (index (optimized_workload_energy st) i) as [c|e]; [|reflexivity].
  cbn [rbind with_nan.arith]. rewrite nan_py_min.
  cbn [with_nan.arith with_nan.le with_nan.energy_to_shift
       optimized_workload_energy energy_to_shift].
  unfold embed_schedule. cbn [optimized_workload_energy energy_to_shift].
  now rewrite list_fmap_insert.
Qed.

Lemma nan_decrease_body (optimal : list bool) (w : list Q) (i : nat) (st : schedule) :
  with_nan.decrease_body optimal (map Some w) i (embed_schedule st)
  = match decrease_body optimal w i st with
    | Ok (st', b) => Ok (embed_schedule st', b)
    | Raise e => Raise e
    end.
Proof.
  unfold with_nan.decrease_body, decrease_body.
  destruct (index optimal i) as [o|e]; [|reflexivity]. cbn [rbind].
  destruct o; [reflexivity|]. cbn [negb].
  rewrite index_map. destruct (index w i) as [x|e]; [|reflexivity]. cbn [rbind].
  cbn [embed_schedule with_nan.optimized_workload_energy with_nan.energy_to_shift].
  rewrite index_map.
  destruct (index (optimized_workload_energy st) i) as [c|e]; [|reflexivity].
  cbn [rbind with_nan.arith].
  unfold embed_schedule. cbn [optimized_workload_energy energy_to_shift].
  now rewrite list_fmap_insert.
Qed.

Lemma for_range_embed
    (body : nat -> schedule -> result (schedule * bool))
    (body' : nat -> with_nan.schedule -> result (with_nan.schedule * bool))
    (range : list nat) (st : schedule) :
  (forall i st, body' i (embed_schedule st)
                = match body i st with
                  | Ok (st', b) => Ok (embed_schedule st', b)
                  | Raise e => Raise e
                  end) ->
  for_range body' range (embed_schedule st)
  = match for_range body range st with
    | Ok st' => Ok (embed_schedule st')
    | Raise e => Raise e
    end.
Proof.
  intros Hbody. revert st. induction range as [|i range IH]; intros st.
  - reflexivity.
  - cbn [for_range]. rewrite Hbody.
    destruct (body i st) as [[st' b]|e]; [|reflexivity].
    destruct b; [reflexivity | apply IH].
Qed.

Lemma nan_maximum0 (l : list Q) :
  map with_nan.maximum0 (map Some l) = map Some (map maximum0 l).
Proof. now rewrite !map_map. Qed.

Lemma nan_optimize_workload_schedule (n : nat) (w av : list Q) (t : Q) :
  with_nan.optimize_workload_schedule n (map Some w) (map Some av) t
  = match optimize_workload_schedule n w av t with
    | Ok optimized => Ok (map Some optimized)
    | Raise e => Raise e
    end.
Proof.
  unfold with_nan.optimize_workload_schedule, optimize_workload_schedule.
  rewrite nan_optimal_hours, nan_total_energy_to_shift.
  change {| with_nan.optimized_workload_energy := map Some w;
            with_nan.energy_to_shift :=
              Some (total_energy_to_shift w av (optimal_hours av t) t) |}
    with (embed_schedule
            {| optimized_workload_energy := w;
               energy_to_shift :=
                 total_energy_to_shift w av (optimal_hours av t) t |}).
  rewrite (for_range_embed (increase_body (optimal_hours av t) w))
    by apply nan_increase_body.
  destruct (for_range (increase_body (optimal_hours av t) w) _ _)
    as [increased|e]; [|reflexivity].
  cbn [rbind].
  rewrite (for_range_embed (decrease_body (optimal_hours av t) w))
    by apply nan_decrease_body.
  destruct (for_range (decrease_body (optimal_hours av t) w) _ _)
    as [decreased|e]; [|reflexivity].
  cbn [rbind embed_schedule with_nan.optimized_workload_energy].
  now rewrite nan_maximum0.
Qed.

Lemma nan_emissions (energy av : list Q) (efn efr : Q) :
  with_nan.emissions (map Some energy) (map Some av) efn efr
  = map Some (emissions energy av efn efr).
Proof.
  unfold with_nan.emissions, emissions.
  rewrite !nan_zip_with, !map_map.
  change (map (fun x => with_nan.arith Qmult (Some x) (Some efn)))
    with (map (fun x => Some (x * efn))).
  change (map (fun x => with_nan.arith Qmult (Some x) (Some efr)))
    with (map (fun x => Some (x * efr))).
  rewrite <- (map_map (fun x => x * efn) Some).
  rewrite <- (map_map (fun x => x * efr) Some).
  apply nan_zip_with.
Qed.


Lemma floats_num (l : list Q) : with_nan.floats (map Num l) = map Some l.
Proof. unfold with_nan.floats. now rewrite map_map. Qed.


(** ** Step 3 on arrays that may hold NaN *)

Lemma length_nan_optimal_hours (av : list with_nan.float) (t : Q) :
  length (with_nan.optimal_hours av t) = length av.
Proof. apply length_map. Qed.

(** The first loop runs to its end on arrays of one length, whatever they
    hold, and keeps the length of the schedule. *)
Lemma nan_increase_loop_returns (optimal : list bool) (w : list with_nan.float)
    (st : with_nan.schedule) :
  length optimal = length w ->
  length (with_nan.optimized_workload_energy st) = length w ->
  exists st',
    for_range (with_nan.increase_body optimal w) (seq 0 (length w)) st = Ok st' /\
    length (with_nan.optimized_workload_energy st') = length w.
Proof.
  intros Ho Hst.
  apply (for_range_invariant
           (fun s => length (with_nan.optimized_workload_energy s) = length w));
    [exact Hst|].
  intros i s Hi Hs. apply in_seq in Hi.
  unfold with_nan.increase_body.
  destruct (index_lt optimal i) as (o & -> & _); [lia|]. cbn [rbind].
  destruct o; [|now exists s, false].
  destruct (index_lt w i) as (x & -> & _); [lia|]. cbn [rbind].
  destruct (index_lt (with_nan.optimized_workload_energy s) i) as (c & -> & _);
    [lia|].
  cbn [rbind]. eexists. eexists. split; [reflexivity|].
  cbn [with_nan.optimized_workload_energy]. now rewrite length_insert.
Qed.

(** So does the second loop. *)
Lemma nan_decrease_loop_returns (optimal : list bool) (w : list with_nan.float)
    (st : with_nan.schedule) :
  length optimal = length w ->
  length (with_nan.optimized_workload_energy st) = length w ->
  exists st',
    for_range (with_nan.decrease_body optimal w) (seq 0 (length w)) st = Ok st' /\
    length (with_nan.optimized_workload_energy st') = length w.
Proof.
  intros Ho Hst.
  apply (for_range_invariant
           (fun s => length (with_nan.optimized_workload_energy s) = length w));
    [exact Hst|].
  intros j s Hj Hlen. apply in_seq in Hj.
  unfold with_nan.decrease_body.
  destruct (index_lt optimal j) as (o & -> & _); [lia|]. cbn [rbind].
  destruct o; cbn [negb]; [now exists s, false|].
  destruct (index_lt w j) as (x & -> & _); [lia|]. cbn [rbind].
  destruct (index_lt (with_nan.optimized_workload_energy s) j) as (c & -> & _);
    [lia|].
  cbn [rbind]. eexists. eexists. split; [reflexivity|].
  cbn [with_nan.optimized_workload_energy]. now rewrite length_insert.
Qed.

Lemma nan_optimize_workload_schedule_returns
    (w availability : list with_nan.float) (t : Q) :
  length availability = length w ->
  exists optimized,
    with_nan.optimize_workload_schedule (length w) w availability t
    = Ok optimized /\
    length optimized = length w.
Proof.
  intros Hlen. unfold with_nan.optimize_workload_schedule.
  assert (Ho : length (with_nan.optimal_hours availability t) = length w)
    by now rewrite length_nan_optimal_hours.
  destruct (nan_increase_loop_returns (with_nan.optimal_hours availability t) w
              {| with_nan.optimized_workload_energy := w;
                 with_nan.energy_to_shift :=
                   with_nan.total_energy_to_shift w availability
                     (with_nan.optimal_hours availability t) t |} Ho eq_refl)
    as (increased & -> & Hlinc).
  cbn [rbind].
  destruct (nan_decrease_loop_returns (with_nan.optimal_hours availability t) w
              increased Ho Hlinc) as (decreased & -> & Hldec).
  cbn [rbind]. eexists. split; [reflexivity|]. now rewrite length_map.
Qed.

(** The body of the second loop does nothing at a slot classified optimal,
    and the loop, wherever it is started, leaves such a slot as it was. *)
Lemma nan_decrease_body_optimal (optimal : list bool) (w : list with_nan.float)
    (i : nat) (st : with_nan.schedule) :
  optimal !! i = Some true ->
  with_nan.decrease_body optimal w i st = Ok (st, false).
Proof.
  intros Hi. unfold with_nan.decrease_body, index. now rewrite Hi.
Qed.

Lemma nan_decrease_loop_optimal_slot (optimal : list bool)
    (w : list with_nan.float) (i : nat) (range : list nat)
    (st st' : with_nan.schedule) :
  optimal !! i = Some true ->
  for_range (with_nan.decrease_body optimal w) range st = Ok st' ->
  with_nan.optimized_workload_energy st' !! i
  = with_nan.optimized_workload_energy st !! i.
Proof.
  intros Hi. revert st. induction range as [|j range IH]; intros st Hrun.
  - cbn in Hrun. now injection Hrun as <-.
  - cbn [for_range] in Hrun.
    destruct (with_nan.decrease_body optimal w j st) as [[s b]|e] eqn:Hbody;
      [|discriminate].
    assert (Hs : with_nan.optimized_workload_energy s !! i
                 = with_nan.optimized_workload_energy st !! i /\ b = false).
    { unfold with_nan.decrease_body, index in Hbody.
      destruct (optimal !! j) as [o|] eqn:Hj; [|discriminate].
      cbn [rbind] in Hbody. destruct o; cbn [negb] in Hbody.
      { injection Hbody as <- <-. now split. }
      destruct (w !! j); [|discriminate]. cbn [rbind] in Hbody.
      destruct (with_nan.optimized_workload_energy st !! j); [|discriminate].
      cbn [rbind] in Hbody. injection Hbody as <- <-.
      cbn [with_nan.optimized_workload_energy]. split; [|reflexivity].
      apply list_lookup_insert_ne. intros ->. congruence. }
    destruct Hs as [Hs ->]. rewrite <- Hs. now apply IH.
Qed.


(** ** The claims on columns that may hold NaN *)




(** C9 fails as stated.  With every workload zero and a missing reading (NaN)
    in the availability column, the baseline emissions are NaN, which is not
    equal to 0: the guard lets the division through and the carbon footprint
    impact returned is NaN. *)
Lemma nan_availability_gives_nan_impact :
  nan_availability_table !! WORKLOAD = Some [Num 0; Num 0; Num 0] /\
  exists r,
    with_nan.run_simulation nan_availability_table 0.7 0.5 0.02 = Ok r /\
    with_nan.total_baseline_emissions r = None /\
    with_nan.carbon_footprint_impact r = None.
Proof.
  split; [reflexivity|].
  destruct (with_nan.run_simulation nan_availability_table 0.7 0.5 0.02)
    as [r|e] eqn:Hrun; vm_compute in Hrun; [|discriminate].
  injection Hrun as <-. eexists. repeat split.
Qed.

(** C9, as the code has it.  When every workload is zero and the availability
    column holds finite numbers (the prices may hold NaN), the baseline
    emissions total zero and the engine returns a carbon footprint impact of
    exactly 0, the guarded branch of the division. *)
Theorem zero_workload_finite_availability_impact_is_zero
    (data : DataFrame) (ts price_column : Series) (ra w : list Q) (t efn efr : Q) :
  data !! TIMESTAMP = Some ts ->
  data !! PRICE = Some price_column ->
  existsb is_text price_column = false ->
  data !! RENEWABLE = Some (map Num ra) ->
  data !! WORKLOAD = Some (map Num w) ->
  length ra = length ts ->
  length w = length ts ->
  Forall (fun x => x == 0) w ->
  exists r e,
    with_nan.run_simulation data t efn efr = Ok r /\
    with_nan.total_baseline_emissions r = Some e /\ e == 0 /\
    with_nan.carbon_footprint_impact r = Some 0.
Proof.
  intros Hts Hp Hpt Hr Hw Hlr Hlw Hzero.
  unfold with_nan.run_simulation, column. rewrite Hts, Hp, Hr, Hw. cbn [rbind].
  rewrite !no_text_num. cbn [rbind].
  unfold no_text. rewrite Hpt. cbn [rbind].
  rewrite !floats_num. unfold with_nan.simulate. rewrite map_map.
  change (map (fun x => with_nan.arith Qdiv (Some x) (Some 100)) ra)
    with (map (fun x => Some (x / 100)) ra).
  rewrite <- (map_map (fun x => x / 100) Some).
  destruct (nan_optimize_workload_schedule_returns (map Some w)
              (map Some (map (fun x => x / 100) ra)) t) as (optimized & Hopt & _).
  { rewrite !length_map. lia. }
  rewrite length_map, Hlw in Hopt. rewrite Hopt. cbn [rbind].
  assert (He : np_sum (emissions w (map (fun x => x / 100) ra) efn efr) == 0).
  { apply np_sum_zero. now apply emissions_zero. }
  eexists. exists (np_sum (emissions w (map (fun x => x / 100) ra) efn efr)).
  split; [reflexivity|].
  cbn [with_nan.total_baseline_emissions with_nan.carbon_footprint_impact
       with_nan.compare_results].
  rewrite nan_emissions, nan_np_sum.
  split; [reflexivity|]. split; [exact He|].
  cbn [with_nan.ne]. apply Qeq_eq_bool in He. now rewrite He.
Qed.

Lemma zero_workload_finite_availability_impact_is_zero_witness :
  exists r,
    with_nan.run_simulation
      (<[PRICE := [Num 0.1; NaN; Num 0.1]]>
         (<[WORKLOAD := map Num [0; 0; 0]]> scenario_table))
      0.7 0.5 0.02 = Ok r /\
    with_nan.carbon_footprint_impact r = Some 0.
Proof.
  destruct (zero_workload_finite_availability_impact_is_zero
              (<[PRICE := [Num 0.1; NaN; Num 0.1]]>
                 (<[WORKLOAD := map Num [0; 0; 0]]> scenario_table))
              scenario_timestamps [Num 0.1; NaN; Num 0.1] scenario_availability
              [0; 0; 0] 0.7 0.5 0.02) as (r & e & Hr & _ & _ & Hc).
  - reflexivity.
  - reflexivity.
  - reflexivity.
  - reflexivity.
  - reflexivity.
  - reflexivity.
  - reflexivity.
  - repeat constructor.
  - exists r. split; assumption.
Defined.

(** C8.  Boundary inclusivity.  Whatever the arrays hold elsewhere (NaN
    included), a slot whose availability fraction, as the engine has it in
    its array, equals the threshold is classified optimal: the comparison is
    [>=].  The body of the loop of the flat 10% reduction does nothing at
    that slot, so the loop leaves the slot as the first loop left it, and
    what step 3 returns for the slot is that value clamped at 0.  On arrays
    of finite numbers step 3 does return, an array of finite numbers. *)
Theorem boundary_fraction_is_optimal
    (w availability : list with_nan.float) (t : Q) (i : nat) (f : Q) :
  length availability = length w ->
  availability !! i = Some (Some f) ->
  f == t ->
  let optimal := with_nan.optimal_hours availability t in
  optimal !! i = Some true /\
  (forall st, with_nan.decrease_body optimal w i st = Ok (st, false)) /\
  (forall increased decreased,
      for_range (with_nan.decrease_body optimal w) (seq 0 (length w)) increased
        = Ok decreased ->
      with_nan.optimized_workload_energy decreased !! i
      = with_nan.optimized_workload_energy increased !! i) /\
  (forall optimized,
      with_nan.optimize_workload_schedule (length w) w availability t
        = Ok optimized ->
      exists increased,
        for_range (with_nan.increase_body optimal w) (seq 0 (length w))
          {| with_nan.optimized_workload_energy := w;
             with_nan.energy_to_shift :=
               with_nan.total_energy_to_shift w availability optimal t |}
          = Ok increased /\
        optimized !! i
        = with_nan.maximum0 <$> with_nan.optimized_workload_energy increased !! i) /\
  (forall finite_w finite_availability,
      w = map Some finite_w ->
      availability = map Some finite_availability ->
      exists optimized,
        with_nan.optimize_workload_schedule (length w) w availability t
        = Ok (map Some optimized) /\
        length optimized = length w).
Proof.
  intros Hlen Hi Hft. cbv zeta.
  assert (Hopt : with_nan.optimal_hours availability t !! i = Some true).
  { unfold with_nan.optimal_hours. rewrite list_lookup_fmap, Hi. cbn.
    f_equal. apply Qle_bool_iff. rewrite Hft. apply Qle_refl. }
  split; [exact Hopt|].
  split; [intros st; now apply nan_decrease_body_optimal|].
  split.
  { intros increased decreased.
    now apply nan_decrease_loop_optimal_slot. }
  split.
  - intros optimized Hrun.
    unfold with_nan.optimize_workload_schedule in Hrun.
    destruct (for_range (with_nan.increase_body _ _) _ _) as [increased|];
      [|discriminate].
    cbn [rbind] in Hrun.
    destruct (for_range (with_nan.decrease_body _ _) _ _) as [decreased|] eqn:Hdec;
      [|discriminate].
    cbn [rbind] in Hrun. injection Hrun as <-.
    exists increased. split; [reflexivity|].
    rewrite list_lookup_fmap.
    now rewrite (nan_decrease_loop_optimal_slot _ _ _ _ _ _ Hopt Hdec).
  - intros wq aq -> ->. rewrite !length_map in *.
    rewrite nan_optimize_workload_schedule.
    rewrite optimize_workload_schedule_returns by exact Hlen.
    eexists. split; [reflexivity|].
    now rewrite length_map, length_decrease, length_increase.
Qed.

Lemma boundary_fraction_is_optimal_witness :
  with_nan.optimal_hours [Some 0.7; Some 0.5; None] 0.7 !! 0%nat = Some true /\
  forall st,
    with_nan.decrease_body (with_nan.optimal_hours [Some 0.7; Some 0.5; None] 0.7)
      [Some 10; None; Some 10] 0 st = Ok (st, false).
Proof.
  destruct (boundary_fraction_is_optimal [Some 10; None; Some 10]
              [Some 0.7; Some 0.5; None] 0.7 0%nat 0.7)
    as (Hopt & Hbody & _).
  - reflexivity.
  - reflexivity.
  - reflexivity.
  - split; [exact Hopt | exact Hbody].
Defined.

(** * Step 3 by dtype of the workload column *)

Lemma py_min_bounds (e m : Q) :
  0 <= e -> 0 <= m -> 0 <= py_min e m /\ py_min e m <= e /\ py_min e m <= m.
Proof.
  intros He Hm. unfold py_min. destruct (Qle_bool e m) eqn:H.
  - apply Qle_bool_iff in H. lra.
  - assert (~ e <= m) by (intros H'; apply Qle_bool_iff in H'; congruence). lra.
Qed.

(** The deficit of step 2 is never negative on non-negative workloads: only
    slots below the threshold enter it. *)
Lemma total_energy_to_shift_nonneg (workload availability : list Q) (t : Q) :
  Forall (fun x => 0 <= x) workload ->
  0 <= total_energy_to_shift workload availability (optimal_hours availability t) t.
Proof.
  intros Hw. unfold total_energy_to_shift. revert availability.
  induction Hw as [|w workload Hw0 _ IH]; intros [|a availability];
    try (cbn; lra).
  cbn [optimal_hours map select]. fold (optimal_hours availability t).
  destruct (Qle_bool t a) eqn:Hta; cbn [negb].
  - apply IH.
  - cbn [map zip_with]. rewrite np_sum_cons.
    assert (a < t).
    { apply Qnot_le_lt. intros H. apply Qle_bool_iff in H. congruence. }
    assert (0 <= w * (t - a)) by (apply Qmult_le_0_compat; lra).
    specialize (IH availability). lra.
Qed.

Lemma optimal_hours_none (availability : list Q) (t : Q) :
  Forall (fun f => f < t) availability ->
  optimal_hours availability t = repeat false (length availability).
Proof.
  unfold optimal_hours. induction 1 as [|f l Hf _ IH]; [reflexivity|].
  cbn [map length repeat]. rewrite IH. f_equal.
  destruct (Qle_bool t f) eqn:H; [|reflexivity].
  apply Qle_bool_iff in H. lra.
Qed.

(** On a float64 column the bodies are those of [energy_simulation]. *)
Lemma in_place_float64_increase_body :
  in_place.increase_body in_place.float64 = increase_body.
Proof. reflexivity. Qed.

Lemma in_place_float64_decrease_body :
  in_place.decrease_body in_place.float64 = decrease_body.
Proof. reflexivity. Qed.

Lemma in_place_float64_optimize_workload_schedule :
  in_place.optimize_workload_schedule in_place.float64 = optimize_workload_schedule.
Proof. reflexivity. Qed.

Lemma lookup_repeat {A} (x : A) (n i : nat) :
  (i < n)%nat -> repeat x n !! i = Some x.
Proof.
  revert i. induction n as [|n IH]; intros [|i] Hi; cbn; try lia; [reflexivity|].
  apply IH. lia.
Qed.

(** With no optimal slot the first loop changes nothing. *)
Lemma in_place_increase_none (d : in_place.dtype) (n : nat) (w : list Q)
    (range : list nat) (st : schedule) :
  Forall (fun i => (i < n)%nat) range ->
  for_range (in_place.increase_body d (repeat false n) w) range st = Ok st.
Proof.
  induction 1 as [|i range Hi _ IH]; [reflexivity|].
  cbn [for_range]. unfold in_place.increase_body at 1, index.
  rewrite lookup_repeat by exact Hi. cbn [rbind]. exact IH.
Qed.

(** And the second loop rewrites every slot. *)
Lemma in_place_decrease_all (d : in_place.dtype) (current : list Q) :
  forall (n : nat) (pw pc : list Q) (e : Q),
    length pw = length pc ->
    (length pc + length current <= n)%nat ->
    for_range (in_place.decrease_body d (repeat false n) (pw ++ current))
              (seq (length pc) (length current))
              {| optimized_workload_energy := pc ++ current; energy_to_shift := e |}
    = Ok {| optimized_workload_energy :=
              pc ++ map (fun x => in_place.cast d (x - x * 0.1)) current;
            energy_to_shift := e |}.
Proof.
  induction current as [|c current IH]; intros n pw pc e Hpw Hn.
  - reflexivity.
  - cbn [length seq for_range map]. cbn [length] in Hn.
    unfold in_place.decrease_body at 1.
    unfold index at 1. rewrite lookup_repeat by lia. cbn [rbind negb].
    rewrite (index_middle pw) by (symmetry; exact Hpw).
    cbn [rbind optimized_workload_energy energy_to_shift].
    rewrite (index_middle pc) by reflexivity.
    cbn [rbind]. rewrite insert_middle.
    rewrite (snoc_app pw current c).
    rewrite (snoc_app pc current (in_place.cast d (c - c * 0.1))).
    replace (S (length pc))
      with (length (pc ++ [in_place.cast d (c - c * 0.1)]))
      by (rewrite length_app; cbn; lia).
    rewrite IH; rewrite ?length_app; cbn [length]; try lia.
    now rewrite <- app_assoc.
Qed.

(** X1.  When no slot is classified optimal (every fraction in the engine's
    array is below the threshold), whatever the dtype of the workload column,
    the first loop leaves the schedule and the deficit as it found them, and
    step 3 returns for every slot the value the array keeps for
    workload - workload * 0.1, clamped at 0: that value itself on a float64
    column, its integer part on an int64 column. *)
Theorem no_optimal_slot_flat_reduction_by_dtype
    (d : in_place.dtype) (w availability : list Q) (t : Q) :
  length availability = length w ->
  Forall (fun f => f < t) availability ->
  let optimal := optimal_hours availability t in
  let start :=
    {| optimized_workload_energy := w;
       energy_to_shift := total_energy_to_shift w availability optimal t |} in
  for_range (in_place.increase_body d optimal w) (seq 0 (length w)) start
    = Ok start /\
  in_place.optimize_workload_schedule d (length w) w availability t
    = Ok (map (fun x => maximum0 (in_place.cast d (x - x * 0.1))) w).
Proof.
  intros Hlen Hbelow. cbv zeta.
  pose proof (optimal_hours_none availability t Hbelow) as Hopt.
  rewrite Hlen in Hopt.
  assert (Hinc : forall st,
             for_range (in_place.increase_body d (repeat false (length w)) w)
                       (seq 0 (length w)) st = Ok st).
  { intros st. apply in_place_increase_none.
    apply Forall_forall. intros i Hi. apply elem_of_seq in Hi. lia. }
  split; [rewrite Hopt; apply Hinc|].
  unfold in_place.optimize_workload_schedule. rewrite Hopt, Hinc. cbn [rbind].
  pose proof (in_place_decrease_all d w (length w) [] []
                (total_energy_to_shift w availability
                   (repeat false (length w)) t) eq_refl) as Hdec.
  cbn [app length] in Hdec. rewrite Hdec by lia.
  cbn [rbind optimized_workload_energy]. now rewrite map_map.
Qed.

Lemma no_optimal_slot_flat_reduction_by_dtype_witness :
  in_place.optimize_workload_schedule in_place.int64 3 [5; 5; 5]
    [0.8; 0.5; 0.3] 0.9
  = Ok (map (fun x => maximum0 (in_place.cast in_place.int64 (x - x * 0.1)))
            [5; 5; 5]).
Proof.
  apply (no_optimal_slot_flat_reduction_by_dtype in_place.int64 [5; 5; 5]
           [0.8; 0.5; 0.3] 0.9).
  - reflexivity.
  - repeat constructor.
Defined.

(** X23.  The dtype of the workload column changes the result.  With
    availability fractions 0.8, 0.5, 0.3 and threshold 0.7, the workloads 5,
    5, 5 read as floats come out 6, 4.5, 4.5, in total the 15 kWh of the
    baseline; read as integers they come out 6, 4, 4, in total 14: the
    integer array drops the fractional part of every value written into
    it. *)
Theorem integer_workload_column_truncates :
  exists as_floats as_integers,
    in_place.optimize_workload_schedule in_place.float64 3 [5; 5; 5]
      [0.8; 0.5; 0.3] 0.7 = Ok as_floats /\
    Forall2 Qeq as_floats [6; 4.5; 4.5] /\ np_sum as_floats == 15 /\
    in_place.optimize_workload_schedule in_place.int64 3 [5; 5; 5]
      [0.8; 0.5; 0.3] 0.7 = Ok as_integers /\
    as_integers = [6; 4; 4] /\ np_sum as_integers == 14.
Proof.
  eexists. eexists. split; [vm_compute; reflexivity|].
  split; [repeat constructor|]. split; [reflexivity|].
  split; [vm_compute; reflexivity|]. split; reflexivity.
Qed.

(** ** Bounds that hold for either dtype *)

(** A property of the state before iteration [i], kept by every iteration,
    holds of the state the loop returns, before some iteration [k] (the one
    after the break, or the end of the range). *)
Lemma for_range_seq_invariant {S} (P : nat -> S -> Prop)
    (body : nat -> S -> result (S * bool)) (n a : nat) (s : S) :
  P a s ->
  (forall i s, (a <= i < a + n)%nat -> P i s ->
               exists s' b, body i s = Ok (s', b) /\ P (Datatypes.S i) s') ->
  exists s' k, for_range body (seq a n) s = Ok s' /\
               (a <= k <= a + n)%nat /\ P k s'.
Proof.
  revert a s. induction n as [|n IH]; intros a s Hs Hbody.
  - exists s, a. repeat split; [lia | lia | exact Hs].
  - destruct (Hbody a s ltac:(lia) Hs) as (s' & b & Hrun & Hs').
    cbn [seq for_range]. rewrite Hrun. destruct b.
    + exists s', (Datatypes.S a). repeat split; [lia | lia | exact Hs'].
    + destruct (IH (Datatypes.S a) s' Hs') as (s'' & k & Hfor & Hk & Hs'').
      { intros i s0 Hi. apply Hbody. lia. }
      exists s'', k. repeat split; [exact Hfor | lia | lia | exact Hs''].
Qed.

Lemma truncate_nonneg (v : Q) :
  0 <= v ->
  0 <= inject_Z (Z.quot (Qnum v) (Zpos (Qden v))) <= v /\
  forall k : Z, inject_Z k <= v ->
                inject_Z k <= inject_Z (Z.quot (Qnum v) (Zpos (Qden v))).
Proof.
  intros Hv. destruct v as [p q]. cbn [Qnum Qden].
  assert (Hnum : (0 <= p)%Z) by (unfold Qle in Hv; cbn in Hv; lia).
  rewrite Z.quot_div_nonneg by lia.
  change (p / Zpos q)%Z with (Qfloor (p # q)).
  split; [split|].
  - change 0 with (inject_Z 0). rewrite <- Zle_Qle.
    apply Z.div_pos; lia.
  - apply Qfloor_le.
  - intros k Hk. rewrite <- Zle_Qle.
    rewrite <- (Qfloor_Z k). now apply Qfloor_resp_le.
Qed.

(** Writing a non-negative float keeps it between 0 and itself. *)
Lemma cast_down (d : in_place.dtype) (v : Q) :
  0 <= v -> 0 <= in_place.cast d v <= v.
Proof.
  intros Hv. destruct d; cbn [in_place.cast].
  - split; [exact Hv | apply Qle_refl].
  - apply truncate_nonneg, Hv.
Qed.

(** Adding a non-negative float to a value of the array does not lower it. *)
Lemma cast_up (d : in_place.dtype) (x s : Q) :
  of_dtype d x -> 0 <= x -> 0 <= s ->
  x <= in_place.cast d (x + s) <= x + s.
Proof.
  intros Hd Hx Hs. destruct d; cbn [in_place.cast].
  - split; [lra | apply Qle_refl].
  - destruct Hd as [k Hk].
    destruct (truncate_nonneg (x + s)) as [[_ Hle] Hk']; [lra|].
    split; [|exact Hle].
    rewrite Hk at 1. apply Hk'. rewrite <- Hk. lra.
Qed.

(** The first loop on a column of non-negative workloads, for either dtype:
    it returns, what is left of the deficit lies between 0 and the deficit,
    an optimal slot has not gone below its workload nor above its workload
    plus 20%, and every other slot is untouched. *)
Lemma in_place_increase_loop (d : in_place.dtype) (optimal : list bool)
    (w : list Q) (e0 : Q) :
  length optimal = length w ->
  Forall (fun x => 0 <= x) w ->
  Forall (of_dtype d) w ->
  0 <= e0 ->
  exists increased,
    for_range (in_place.increase_body d optimal w) (seq 0 (length w))
      {| optimized_workload_energy := w; energy_to_shift := e0 |}
      = Ok increased /\
    length (optimized_workload_energy increased) = length w /\
    0 <= energy_to_shift increased <= e0 /\
    forall (i : nat) (x o : Q) (b : bool),
      w !! i = Some x -> optimal !! i = Some b ->
      optimized_workload_energy increased !! i = Some o ->
      if b then x <= o <= x + x * 0.2 else o = x.
Proof.
  intros Hlen Hpos Hdt He0.
  destruct (for_range_seq_invariant
              (fun k s =>
                 length (optimized_workload_energy s) = length w /\
                 0 <= energy_to_shift s <= e0 /\
                 forall (i : nat) (x o : Q) (b : bool),
                   w !! i = Some x -> optimal !! i = Some b ->
                   optimized_workload_energy s !! i = Some o ->
                   (if b then x <= o <= x + x * 0.2 else o = x) /\
                   ((k <= i)%nat -> o = x))
              (in_place.increase_body d optimal w) (length w) 0
              {| optimized_workload_energy := w; energy_to_shift := e0 |})
    as (increased & k & Hrun & _ & Hl & He & Hslots).
  - cbn [optimized_workload_energy energy_to_shift].
    split; [reflexivity|]. split; [lra|].
    intros i x o b Hx _ Ho. rewrite Hx in Ho. injection Ho as <-.
    assert (0 <= x) by (eapply Forall_lookup_1 in Hpos; [exact Hpos | exact Hx]).
    split; [destruct b; [lra | reflexivity] | reflexivity].
  - intros i s Hi (Hl & He & Hslots).
    unfold in_place.increase_body.
    destruct (index_lt optimal i) as (b & -> & Hb); [lia|]. cbn [rbind].
    destruct b.
    + destruct (index_lt w i) as (x & -> & Hx); [lia|]. cbn [rbind].
      destruct (index_lt (optimized_workload_energy s) i) as (c & -> & Hc); [lia|].
      cbn [rbind]. eexists. eexists. split; [reflexivity|].
      cbn [optimized_workload_energy energy_to_shift].
      assert (Hx0 : 0 <= x)
        by (eapply Forall_lookup_1 in Hpos; [exact Hpos | exact Hx]).
      assert (Hxd : of_dtype d x)
        by (eapply Forall_lookup_1 in Hdt; [exact Hdt | exact Hx]).
      destruct (Hslots i x c true Hx Hb Hc) as [_ Hcx].
      specialize (Hcx (Nat.le_refl i)). subst c.
      destruct (py_min_bounds (energy_to_shift s) (x * 0.2))
        as (Hs0 & Hse & Hsm); [lra | lra |].
      pose proof (cast_up d x (py_min (energy_to_shift s) (x * 0.2)) Hxd Hx0 Hs0)
        as Hcast.
      split; [now rewrite length_insert|]. split; [lra|].
      intros j y o b Hy Hbj Ho.
      destruct (decide (j = i)) as [->|Hji].
      * rewrite list_lookup_insert_eq in Ho by lia. injection Ho as <-.
        rewrite Hx in Hy. injection Hy as <-.
        rewrite Hb in Hbj. injection Hbj as <-.
        split; [lra | lia].
      * rewrite list_lookup_insert_ne in Ho by congruence.
        destruct (Hslots j y o b Hy Hbj Ho) as [Hrange Hlater].
        split; [exact Hrange | intros Hk; apply Hlater; lia].
    + exists s, false. split; [reflexivity|].
      split; [exact Hl|]. split; [exact He|].
      intros j y o b Hy Hbj Ho.
      destruct (Hslots j y o b Hy Hbj Ho) as [Hrange Hlater].
      split; [exact Hrange | intros Hk; apply Hlater; lia].
  - exists increased. split; [exact Hrun|]. split; [exact Hl|].
    split; [exact He|].
    intros i x o b Hx Hb Ho. now destruct (Hslots i x o b Hx Hb Ho).
Qed.

(** The second loop, for either dtype, from a schedule in which the slots
    that are not optimal still hold their workload: it returns, leaves the
    optimal slots alone and takes each other slot to a value between 0 and
    its workload. *)
Lemma in_place_decrease_loop (d : in_place.dtype) (optimal : list bool)
    (w : list Q) (increased : schedule) :
  length optimal = length w ->
  length (optimized_workload_energy increased) = length w ->
  Forall (fun x => 0 <= x) w ->
  (forall (i : nat) (x o : Q),
      w !! i = Some x -> optimal !! i = Some false ->
      optimized_workload_energy increased !! i = Some o -> o = x) ->
  exists decreased,
    for_range (in_place.decrease_body d optimal w) (seq 0 (length w)) increased
      = Ok decreased /\
    length (optimized_workload_energy decreased) = length w /\
    forall (i : nat) (x o : Q) (b : bool),
      w !! i = Some x -> optimal !! i = Some b ->
      optimized_workload_energy decreased !! i = Some o ->
      if b then optimized_workload_energy increased !! i = Some o
      else 0 <= o <= x.
Proof.
  intros Hlen Hli Hpos Hsame.
  destruct (for_range_seq_invariant
              (fun k s =>
                 length (optimized_workload_energy s) = length w /\
                 forall (i : nat) (x o : Q) (b : bool),
                   w !! i = Some x -> optimal !! i = Some b ->
                   optimized_workload_energy s !! i = Some o ->
                   (if b then optimized_workload_energy increased !! i = Some o
                    else 0 <= o <= x) /\
                   ((k <= i)%nat ->
                    optimized_workload_energy increased !! i = Some o))
              (in_place.decrease_body d optimal w) (length w) 0 increased)
    as (decreased & k & Hrun & _ & Hl & Hslots).
  - split; [exact Hli|].
    intros i x o b Hx Hb Ho. split; [|intros _; exact Ho].
    destruct b; [exact Ho|].
    rewrite (Hsame i x o Hx Hb Ho).
    assert (0 <= x) by (eapply Forall_lookup_1 in Hpos; [exact Hpos | exact Hx]).
    lra.
  - intros i s Hi (Hl & Hslots).
    unfold in_place.decrease_body.
    destruct (index_lt optimal i) as (b & -> & Hb); [lia|]. cbn [rbind].
    destruct b; cbn [negb].
    + exists s, false. split; [reflexivity|]. split; [exact Hl|].
      intros j y o b Hy Hbj Ho.
      destruct (Hslots j y o b Hy Hbj Ho) as [Hrange Hlater].
      split; [exact Hrange | intros Hk; apply Hlater; lia].
    + destruct (index_lt w i) as (x & -> & Hx); [lia|]. cbn [rbind].
      destruct (index_lt (optimized_workload_energy s) i) as (c & -> & Hc); [lia|].
      cbn [rbind]. eexists. eexists. split; [reflexivity|].
      cbn [optimized_workload_energy].
      assert (Hx0 : 0 <= x)
        by (eapply Forall_lookup_1 in Hpos; [exact Hpos | exact Hx]).
      destruct (Hslots i x c false Hx Hb Hc) as [_ Hcx].
      specialize (Hcx (Nat.le_refl i)).
      rewrite (Hsame i x c Hx Hb Hcx).
      pose proof (cast_down d (x - x * 0.1) ltac:(lra)) as Hcast.
      split; [now rewrite length_insert|].
      intros j y o b Hy Hbj Ho.
      destruct (decide (j = i)) as [->|Hji].
      * rewrite list_lookup_insert_eq in Ho by lia. injection Ho as <-.
        rewrite Hx in Hy. injection Hy as <-.
        rewrite Hb in Hbj. injection Hbj as <-.
        split; [lra | lia].
      * rewrite list_lookup_insert_ne in Ho by congruence.
        destruct (Hslots j y o b Hy Hbj Ho) as [Hrange Hlater].
        split; [exact Hrange | intros Hk; apply Hlater; lia].
  - exists decreased. split; [exact Hrun|]. split; [exact Hl|].
    intros i x o b Hx Hb Ho. now destruct (Hslots i x o b Hx Hb Ho).
Qed.

(** X3.  Direction of the change, slot by slot, on a column of non-negative
    workloads of either dtype: step 3 returns; a slot at or above the
    threshold does not come out below its workload, nor above its workload
    plus 20% of it; a slot below the threshold does not come out above its
    workload, nor below 0. *)
Theorem optimized_slot_direction
    (d : in_place.dtype) (w availability : list Q) (t : Q) :
  length availability = length w ->
  Forall (fun x => 0 <= x) w ->
  Forall (of_dtype d) w ->
  exists optimized,
    in_place.optimize_workload_schedule d (length w) w availability t
      = Ok optimized /\
    length optimized = length w /\
    forall (i : nat) (x f o : Q),
      w !! i = Some x -> availability !! i = Some f -> optimized !! i = Some o ->
      if Qle_bool t f then x <= o <= x + x * 0.2 else 0 <= o <= x.
Proof.
  intros Hlen Hpos Hdt.
  assert (Ho : length (optimal_hours availability t) = length w)
    by now rewrite length_optimal_hours.
  destruct (in_place_increase_loop d (optimal_hours availability t) w
              (total_energy_to_shift w availability
                 (optimal_hours availability t) t) Ho Hpos Hdt
              (total_energy_to_shift_nonneg w availability t Hpos))
    as (increased & Hinc & Hli & _ & Hislots).
  destruct (in_place_decrease_loop d (optimal_hours availability t) w increased
              Ho Hli Hpos) as (decreased & Hdec & Hld & Hdslots).
  { intros i x o Hx Hb Hio. exact (Hislots i x o false Hx Hb Hio). }
  unfold in_place.optimize_workload_schedule. rewrite Hinc. cbn [rbind].
  rewrite Hdec. cbn [rbind].
  eexists. split; [reflexivity|]. split; [now rewrite length_map|].
  intros i x f o Hx Hf Ho'.
  rewrite list_lookup_fmap in Ho'.
  destruct (optimized_workload_energy decreased !! i) as [v|] eqn:Hv;
    [|discriminate].
  cbn in Ho'. injection Ho' as <-.
  assert (Hb : optimal_hours availability t !! i = Some (Qle_bool t f)).
  { unfold optimal_hours. now rewrite list_lookup_fmap, Hf. }
  assert (Hx0 : 0 <= x)
    by (eapply Forall_lookup_1 in Hpos; [exact Hpos | exact Hx]).
  pose proof (Hdslots i x v _ Hx Hb Hv) as Hd.
  destruct (Qle_bool t f).
  - pose proof (Hislots i x v true Hx Hb Hd) as Hi.
    change (x <= v <= x + x * 0.2) in Hi.
    rewrite maximum0_id by lra. exact Hi.
  - change (0 <= v <= x) in Hd.
    rewrite maximum0_id by lra. exact Hd.
Qed.

Lemma optimized_slot_direction_witness :
  exists optimized,
    in_place.optimize_workload_schedule in_place.int64 3 [5; 5; 5]
      [0.8; 0.5; 0.3] 0.7 = Ok optimized /\
    length optimized = 3%nat.
Proof.
  destruct (optimized_slot_direction in_place.int64 [5; 5; 5]
              [0.8; 0.5; 0.3] 0.7) as (optimized & Hrun & Hl & _).
  - reflexivity.
  - repeat constructor; cbn; lra.
  - repeat constructor; [exists 5%Z | exists 5%Z | exists 5%Z]; reflexivity.
  - exists optimized. split; assumption.
Defined.

(** X4.  On a column of non-negative workloads of either dtype the deficit of
    step 2 is never negative, and the first loop never hands out more than
    the deficit: it returns, and what is left of the deficit lies between 0
    and the deficit. *)
Theorem deficit_is_never_overspent
    (d : in_place.dtype) (w availability : list Q) (t : Q) :
  length availability = length w ->
  Forall (fun x => 0 <= x) w ->
  Forall (of_dtype d) w ->
  let optimal := optimal_hours availability t in
  let deficit := total_energy_to_shift w availability optimal t in
  0 <= deficit /\
  exists increased,
    for_range (in_place.increase_body d optimal w) (seq 0 (length w))
      {| optimized_workload_energy := w; energy_to_shift := deficit |}
      = Ok increased /\
    0 <= energy_to_shift increased <= deficit.
Proof.
  intros Hlen Hpos Hdt. cbv zeta.
  pose proof (total_energy_to_shift_nonneg w availability t Hpos) as He.
  split; [exact He|].
  assert (Ho : length (optimal_hours availability t) = length w)
    by now rewrite length_optimal_hours.
  destruct (in_place_increase_loop d (optimal_hours availability t) w _
              Ho Hpos Hdt He) as (increased & Hinc & _ & Hrem & _).
  exists increased. split; assumption.
Qed.

Lemma deficit_is_never_overspent_witness :
  0 <= total_energy_to_shift [10; 10; 10] [0.8; 0.5; 0.3]
         (optimal_hours [0.8; 0.5; 0.3] 0.7) 0.7.
Proof.
  apply (deficit_is_never_overspent in_place.float64 [10; 10; 10]
           [0.8; 0.5; 0.3] 0.7).
  - reflexivity.
  - repeat constructor; cbn; lra.
  - repeat constructor.
Defined.
